(** * rag-video front end: the session-state layer of the chat page

    A shallow embedding of the React component [Home] that keeps one chat
    thread per ingested video, and the properties of its handlers.

    The component exists in two versions in the repository:
    - the session-store page (src/unnamed/part_000): sessions are hydrated
      from the backend listing, can be deleted, and every message is
      appended to a session by key ([addMessageToSession]); modelled in
      [Module Home];
    - the video-list page (src/frontend/src/app/page.tsx): a [videos] list next
      to a separate [currentMessages] buffer; modelled in
      [Module VideoChatHome].

    Modelling conventions.
    - A React state variable is a field of a record; a setter is a function
      on the record.  A handler defined in the component body reads the
      state variables of the render it was created in: synchronous handlers
      run against the latest render, so snapshot and current state coincide;
      an [async] handler is split at its [await fetch] into a [_begin] part
      (runs at the click) and a [_settle] part (runs when the promise
      settles), and the [_settle] part takes both the render snapshot [r]
      (what the closure still sees) and the state [st] at settlement time
      (what functional updates [setX(prev => ...)] receive).
    - Strings are [string]; a character stands for the code unit of the
      same number, so the white space known to [trim] is 9-13, 32 and 160.
    - [try]/[catch] is an error monad over [settled]. *)

From Stdlib Require Import String Ascii List Bool Arith Lia DecimalString.
Import ListNotations.
Local Open Scope string_scope.
Local Open Scope list_scope.

Set Implicit Arguments.

(** ** JavaScript values used by the page *)

Module JS.

(** A string is falsy exactly when it is empty. *)
Definition truthy (s : string) : bool :=
  match s with EmptyString => false | String _ _ => true end.

(** [a || b] on strings. *)
Definition or_else (a b : string) : string := if truthy a then a else b.

(** [a || b] where [a] may be [undefined]. *)
Definition opt_or_else (a : option string) (b : string) : string :=
  match a with
  | Some s => or_else s b
  | None => b
  end.

(** White space removed by [String.prototype.trim], below code unit 256. *)
Definition isWhiteSpace (c : ascii) : bool :=
  let n := nat_of_ascii c in
  (((9 <=? n) && (n <=? 13)) || (n =? 32) || (n =? 160))%nat.

Fixpoint trimStart (s : string) : string :=
  match s with
  | EmptyString => EmptyString
  | String c s' => if isWhiteSpace c then trimStart s' else s
  end.

(** Drops the white space at the end: a white-space character is dropped
    when nothing is left after it. *)
Fixpoint trimEnd (s : string) : string :=
  match s with
  | EmptyString => EmptyString
  | String c s' =>
      match trimEnd s' with
      | EmptyString => if isWhiteSpace c then EmptyString else String c EmptyString
      | t => String c t
      end
  end.

Definition trim (s : string) : string := trimEnd (trimStart s).

(** [`${n}`] for a non-negative integer. *)
Definition numberToString (n : nat) : string :=
  NilZero.string_of_uint (Nat.to_uint n).

(** [url.split('/').pop()]: the part after the last slash. *)
Fixpoint lastSegment (acc s : string) : string :=
  match s with
  | EmptyString => acc
  | String c s' =>
      if Ascii.eqb c "/"%char then lastSegment EmptyString s'
      else lastSegment (acc ++ String c EmptyString) s'
  end.

(** What a [catch (err)] clause can receive. *)
Inductive thrown : Type :=
| ErrorObject (message : string)
| NotAnError.

(** [err instanceof Error ? err.message : fallback] *)
Definition messageOr (fallback : string) (err : thrown) : string :=
  match err with
  | ErrorObject m => m
  | NotAnError => fallback
  end.

(** How an awaited promise settles. *)
Inductive settled (A : Type) : Type :=
| Fulfilled (a : A)
| Rejected (err : thrown).
Arguments Rejected {A} err.

Definition bind {A B : Type} (p : settled A) (k : A -> settled B) : settled B :=
  match p with
  | Fulfilled a => k a
  | Rejected err => Rejected err
  end.

(** [try { body } catch (err) { handler }] where both produce a state. *)
Definition tryCatch {S : Type} (body : settled S) (handler : thrown -> S) : S :=
  match body with
  | Fulfilled s => s
  | Rejected err => handler err
  end.

(** The parts of a fetch [Response] the page reads; [J] is the shape of the
    parsed body. *)
Record Response (J : Type) : Type := mkResponse {
  ok : bool;
  res_statusText : string;
  text : settled string;
  json : settled J
}.

End JS.

Import JS.

Declare Scope await_scope.
Notation "x <- 'await' p ;; k" := (bind p (fun x => k))
  (at level 61, p at next level, right associativity) : await_scope.
Notation "'throw' e" := (Rejected e) (at level 60) : await_scope.
Local Open Scope await_scope.

(** ** Messages (the same interface in both versions) *)

Inductive Role : Type := user | assistant.

Record Message : Type := mkMessage {
  role : Role;
  content : string
}.

(** ** Backend payloads (section 6 of the specification) *)

(** [GET /list-videos].  The page receives [any]; the model keeps the one
    distinction the code tests, [Array.isArray], and takes the elements of
    an array at the shape the endpoint declares. *)
Record video_row : Type := mkRow {
  url : string;
  description : string
}.

Inductive non_array : Type :=
| JNull
| JBoolean (b : bool)
| JNumber (n : nat)
| JString (s : string)
| JObject (fields : list (string * string)).

Inductive listing : Type :=
| JsonArray (rows : list video_row)
| JsonOther (j : non_array).

Definition isArray (data : listing) : bool :=
  match data with JsonArray _ => true | JsonOther _ => false end.

(** [POST /ingest-video] as the session-store page reads it. *)
Record ingest_json : Type := mkIngestJson {
  video_url : string;
  video_description : option string
}.

(** [POST /query]. *)
Record query_json : Type := mkQueryJson {
  response : string
}.

(** ** The session-store page (src/unnamed/part_000) *)

Module Home.

Record ChatSession : Type := mkSession {
  id : string;          (* Backend Video ID *)
  uniqueId : string;    (* Frontend Session ID *)
  title : string;       (* User friendly title *)
  messages : list Message
}.

(** What [console.error] was called with. *)
Inductive log_entry : Type :=
| FailedToFetchVideos (statusText : string)
| ExpectedArrayButGot (data : listing)
| FailedToLoadHistory (err : thrown).

(** The [useState] variables of [Home], followed by what the page has shown
    outside React: the texts passed to [alert] and the calls of
    [console.error], oldest first. *)
Record State : Type := mkState {
  sessions : list ChatSession;
  activeSessionId : option string;
  urlInput : string;
  titleInput : string;
  questionInput : string;
  loading : bool;
  statusText : string;
  alerted : list string;
  logged : list log_entry
}.

(** [useState] initial values. *)
Definition initial : State :=
  {| sessions := []; activeSessionId := None;
     urlInput := ""; titleInput := ""; questionInput := "";
     loading := false; statusText := "";
     alerted := []; logged := [] |}.

(** Setters.  [setSessions] takes the updater form [prev => ...]; a plain
    value [v] is [fun _ => v]. *)
Definition setSessions (f : list ChatSession -> list ChatSession) (st : State) : State :=
  {| sessions := f (sessions st); activeSessionId := activeSessionId st;
     urlInput := urlInput st; titleInput := titleInput st;
     questionInput := questionInput st; loading := loading st;
     statusText := statusText st; alerted := alerted st; logged := logged st |}.

Definition setActiveSessionId (v : option string) (st : State) : State :=
  {| sessions := sessions st; activeSessionId := v;
     urlInput := urlInput st; titleInput := titleInput st;
     questionInput := questionInput st; loading := loading st;
     statusText := statusText st; alerted := alerted st; logged := logged st |}.

Definition setUrlInput (v : string) (st : State) : State :=
  {| sessions := sessions st; activeSessionId := activeSessionId st;
     urlInput := v; titleInput := titleInput st;
     questionInput := questionInput st; loading := loading st;
     statusText := statusText st; alerted := alerted st; logged := logged st |}.

Definition setTitleInput (v : string) (st : State) : State :=
  {| sessions := sessions st; activeSessionId := activeSessionId st;
     urlInput := urlInput st; titleInput := v;
     questionInput := questionInput st; loading := loading st;
     statusText := statusText st; alerted := alerted st; logged := logged st |}.

Definition setQuestionInput (v : string) (st : State) : State :=
  {| sessions := sessions st; activeSessionId := activeSessionId st;
     urlInput := urlInput st; titleInput := titleInput st;
     questionInput := v; loading := loading st;
     statusText := statusText st; alerted := alerted st; logged := logged st |}.

Definition setLoading (v : bool) (st : State) : State :=
  {| sessions := sessions st; activeSessionId := activeSessionId st;
     urlInput := urlInput st; titleInput := titleInput st;
     questionInput := questionInput st; loading := v;
     statusText := statusText st; alerted := alerted st; logged := logged st |}.

Definition setStatusText (v : string) (st : State) : State :=
  {| sessions := sessions st; activeSessionId := activeSessionId st;
     urlInput := urlInput st; titleInput := titleInput st;
     questionInput := questionInput st; loading := loading st;
     statusText := v; alerted := alerted st; logged := logged st |}.

Definition alert (msg : string) (st : State) : State :=
  {| sessions := sessions st; activeSessionId := activeSessionId st;
     urlInput := urlInput st; titleInput := titleInput st;
     questionInput := questionInput st; loading := loading st;
     statusText := statusText st; alerted := alerted st ++ [msg];
     logged := logged st |}.

Definition console_error (e : log_entry) (st : State) : State :=
  {| sessions := sessions st; activeSessionId := activeSessionId st;
     urlInput := urlInput st; titleInput := titleInput st;
     questionInput := questionInput st; loading := loading st;
     statusText := statusText st; alerted := alerted st;
     logged := logged st ++ [e] |}.

(** [s.uniqueId === activeSessionId], the pointer being [string | null]. *)
Definition isActive (active : option string) (s : ChatSession) : bool :=
  match active with
  | Some k => uniqueId s =? k
  | None => false
  end.

(** [const activeChat = sessions.find(s => s.uniqueId === activeSessionId)] *)
Definition activeChat (r : State) : option ChatSession :=
  find (isActive (activeSessionId r)) (sessions r).

(** *** fetchVideosFromDB *)

(** [data.map((v: any) => ({ id: v.url, uniqueId: v.url, title: v.description, messages: [] }))] *)
Definition sessionOfRow (v : video_row) : ChatSession :=
  {| id := url v; uniqueId := url v; title := description v; messages := [] |}.

(** The body of the [try] after [await fetch('.../list-videos')]. *)
Definition fetchVideosFromDB_try (o : settled (Response listing)) (st : State)
  : settled State :=
  res <- await o ;;
  if negb (ok res) then
    Fulfilled (console_error (FailedToFetchVideos (res_statusText res)) st)
  else
    data <- await json res ;;
    match data with
    | JsonOther _ =>
        Fulfilled (setSessions (fun _ => [])
                     (console_error (ExpectedArrayButGot data) st))
    | JsonArray rows =>
        let loadedSessions := map sessionOfRow rows in
        Fulfilled (setSessions (fun _ => loadedSessions) st)
    end.

Definition fetchVideosFromDB_settle (o : settled (Response listing)) (st : State)
  : State :=
  tryCatch (fetchVideosFromDB_try o st)
    (fun err => setSessions (fun _ => []) (console_error (FailedToLoadHistory err) st)).

(** *** handleIngest *)

Record ingest_body : Type := mkIngestBody {
  body_url : string;
  body_description : string
}.

(** [`Video ${sessions.length + 1}`] *)
Definition placeholderTitle (r : State) : string :=
  "Video " ++ numberToString (length (sessions r) + 1).

(** Up to the [await fetch]: [None] is the early [return]; otherwise the
    request body and the state after [setLoading(true)] and [setStatusText]. *)
Definition handleIngest_begin (r : State) : option (ingest_body * State) :=
  if negb (truthy (urlInput r)) then None
  else
    Some ({| body_url := urlInput r;
             body_description := or_else (titleInput r) (placeholderTitle r) |},
          setStatusText "Downloading and processing..." (setLoading true r)).

(** The rest of the [try]: [r] is the render the handler was created in; the
    new collection is built from [sessions r], the other setters do not read
    the state. *)
Definition handleIngest_try (r : State) (o : settled (Response ingest_json))
  (st : State) : settled State :=
  res <- await o ;;
  if negb (ok res) then
    (t <- await text res ;; throw (ErrorObject t))
  else
    data <- await json res ;;
    let videoUrl := video_url data in
    let newSession :=
      {| id := videoUrl;
         uniqueId := videoUrl;
         title := opt_or_else (video_description data)
                    (or_else (titleInput r) (placeholderTitle r));
         messages := [] |} in
    Fulfilled
      (setStatusText ""
        (setTitleInput ""
          (setUrlInput ""
            (setActiveSessionId (Some videoUrl)
              (setSessions (fun _ => newSession :: sessions r) st))))).

Definition handleIngest_settle (r : State) (o : settled (Response ingest_json))
  (st : State) : State :=
  setLoading false
    (tryCatch (handleIngest_try r o st)
       (fun err => alert ("Error: " ++ messageOr "Unknown error" err) st)).

(** *** addMessageToSession, handleSend *)

Definition addMessageToSession (uniqueId' : string) (msg : Message) (st : State)
  : State :=
  setSessions
    (fun prev =>
       map (fun s =>
              if uniqueId s =? uniqueId'
              then {| id := id s; uniqueId := uniqueId s; title := title s;
                      messages := messages s ++ [msg] |}
              else s) prev)
    st.

Record query_body : Type := mkQueryBody {
  question : string;
  body_video_url : string;
  top_k : nat
}.

(** Up to the [await fetch]: the guard, the user message, the request body.
    The session [activeChat r] is what the closure keeps. *)
Definition handleSend_begin (r : State) : option (query_body * State) :=
  match activeChat r with
  | None => None
  | Some chat =>
      if negb (truthy (trim (questionInput r))) then None
      else
        let currentQ := questionInput r in
        Some ({| question := currentQ; body_video_url := id chat; top_k := 8 |},
              setLoading true
                (addMessageToSession (uniqueId chat)
                   {| role := user; content := currentQ |}
                   (setQuestionInput "" r)))
  end.

Definition handleSend_try (chat : ChatSession) (o : settled (Response query_json))
  (st : State) : settled State :=
  res <- await o ;;
  if negb (ok res) then
    (t <- await text res ;; throw (ErrorObject t))
  else
    data <- await json res ;;
    Fulfilled (addMessageToSession (uniqueId chat)
                 {| role := assistant; content := response data |} st).

(** After the [await]: [r] is the render the handler was created in, whose
    [activeChat] passed the guard. *)
Definition handleSend_settle (r : State) (o : settled (Response query_json))
  (st : State) : State :=
  match activeChat r with
  | None => st
  | Some chat =>
      setLoading false
        (tryCatch (handleSend_try chat o st)
           (fun _ => addMessageToSession (uniqueId chat)
                       {| role := assistant;
                          content := "Error: Failed to get response." |} st))
  end.

(** *** handleDelete *)

Definition handleDelete (uniqueId' : string) (st : State) : State :=
  let st1 :=
    setSessions (fun prev => filter (fun s => negb (uniqueId s =? uniqueId')) prev) st in
  match activeSessionId st with
  | Some k => if k =? uniqueId' then setActiveSessionId None st1 else st1
  | None => st1
  end.

End Home.

(** ** The page as an event-driven system

    What the rendered page of the session-store version lets happen: the
    controls that exist and are enabled in a state, the handler each one
    runs, and the requests in flight, which settle in any order. *)

Module Page.

Import Home.

(** A request in flight keeps the render its handler was created in. *)
Inductive request : Type :=
| ListVideos
| IngestVideo (r : State) (body : ingest_body)
| Query (r : State) (body : query_body).

Inductive outcome : Type :=
| Listed (o : settled (Response listing))
| Ingested (o : settled (Response ingest_json))
| Answered (o : settled (Response query_json)).

Inductive event : Type :=
| NewVideoChat                  (* the "+ New Video Chat" button *)
| SelectSession (k : string)    (* click on a history item *)
| DeleteSession (k : string)    (* its delete button *)
| TypeTitle (v : string)
| TypeUrl (v : string)
| StartChat                     (* the "Start Chat" button: handleIngest *)
| TypeQuestion (v : string)
| Send                          (* the "Send" button or Enter: handleSend *)
| Settles (n : nat) (o : outcome).

Record system : Type := mkSystem {
  page : State;
  inflight : list request
}.

(** After mount: [useEffect(() => { fetchVideosFromDB(); }, [])]. *)
Definition mounted : system :=
  {| page := initial; inflight := [ListVideos] |}.

Definition truthyId (a : option string) : bool :=
  match a with
  | Some k => truthy k
  | None => false
  end.

(** [{!activeSessionId && (...)}]: the "Setup New Chat" card. *)
Definition showsSetup (st : State) : bool := negb (truthyId (activeSessionId st)).

(** [{activeSessionId && activeChat && (...)}]: the chat view. *)
Definition showsChat (st : State) : bool :=
  truthyId (activeSessionId st) &&
  match activeChat st with Some _ => true | None => false end.

Definition listed (k : string) (st : State) : bool :=
  existsb (fun s => uniqueId s =? k) (sessions st).

Definition matches (q : request) (o : outcome) : bool :=
  match q, o with
  | ListVideos, Listed _ => true
  | IngestVideo _ _, Ingested _ => true
  | Query _ _, Answered _ => true
  | _, _ => false
  end.

(** Whether the page offers the event in this state. *)
Definition enabled (s : system) (e : event) : bool :=
  let st := page s in
  match e with
  | NewVideoChat => true
  | SelectSession k => listed k st
  | DeleteSession k => listed k st
  | TypeTitle _ => showsSetup st
  | TypeUrl _ => showsSetup st
  | StartChat => showsSetup st && negb (loading st || negb (truthy (urlInput st)))
  | TypeQuestion _ => showsChat st && negb (loading st)
  | Send => showsChat st && negb (loading st)
  | Settles n o =>
      match nth_error (inflight s) n with
      | Some q => matches q o
      | None => false
      end
  end.

Definition withPage (st : State) (s : system) : system :=
  {| page := st; inflight := inflight s |}.

Definition settle (q : request) (o : outcome) (st : State) : State :=
  match q, o with
  | ListVideos, Listed o' => fetchVideosFromDB_settle o' st
  | IngestVideo r _, Ingested o' => handleIngest_settle r o' st
  | Query r _, Answered o' => handleSend_settle r o' st
  | _, _ => st
  end.

Definition fire (s : system) (e : event) : system :=
  let st := page s in
  match e with
  | NewVideoChat => withPage (setActiveSessionId None st) s
  | SelectSession k => withPage (setActiveSessionId (Some k) st) s
  | DeleteSession k => withPage (handleDelete k st) s
  | TypeTitle v => withPage (setTitleInput v st) s
  | TypeUrl v => withPage (setUrlInput v st) s
  | StartChat =>
      match handleIngest_begin st with
      | Some (body, st') =>
          {| page := st'; inflight := inflight s ++ [IngestVideo st body] |}
      | None => s
      end
  | TypeQuestion v => withPage (setQuestionInput v st) s
  | Send =>
      match handleSend_begin st with
      | Some (body, st') =>
          {| page := st'; inflight := inflight s ++ [Query st body] |}
      | None => s
      end
  | Settles n o =>
      match nth_error (inflight s) n with
      | Some q =>
          {| page := settle q o st;
             inflight := firstn n (inflight s) ++ skipn (S n) (inflight s) |}
      | None => s
      end
  end.

(** An event the page does not offer changes nothing. *)
Definition step (s : system) (e : event) : system :=
  if enabled s e then fire s e else s.

Definition run (es : list event) (s : system) : system := fold_left step es s.

(** Every event of the list was offered when its turn came. *)
Fixpoint offered (es : list event) (s : system) : bool :=
  match es with
  | [] => true
  | e :: es' => enabled s e && offered es' (step s e)
  end.

(** Responses used in the scenarios. *)
Definition ok200 {J : Type} (data : J) : settled (Response J) :=
  Fulfilled {| ok := true; res_statusText := "OK";
               text := Fulfilled ""; json := Fulfilled data |}.

Definition status500 {J : Type} (body : string) : settled (Response J) :=
  Fulfilled {| ok := false; res_statusText := "Internal Server Error";
               text := Fulfilled body;
               json := Rejected (ErrorObject "Unexpected token") |}.


End Page.

(** ** The video-list page (src/frontend/src/app/page.tsx) *)

Module VideoChatHome.

Record VideoChat : Type := mkVideoChat {
  videoId : string;
  title : string;
  messages : list Message
}.

Record State : Type := mkState {
  url : string;
  loading : bool;
  status : string;
  videos : list VideoChat;
  activeVideoId : option string;
  question : string;
  currentMessages : list Message
}.

Definition initial : State :=
  {| url := ""; loading := false; status := ""; videos := [];
     activeVideoId := None; question := ""; currentMessages := [] |}.

Definition setUrl (v : string) (st : State) : State :=
  {| url := v; loading := loading st; status := status st; videos := videos st;
     activeVideoId := activeVideoId st; question := question st;
     currentMessages := currentMessages st |}.

Definition setLoading (v : bool) (st : State) : State :=
  {| url := url st; loading := v; status := status st; videos := videos st;
     activeVideoId := activeVideoId st; question := question st;
     currentMessages := currentMessages st |}.

Definition setStatus (v : string) (st : State) : State :=
  {| url := url st; loading := loading st; status := v; videos := videos st;
     activeVideoId := activeVideoId st; question := question st;
     currentMessages := currentMessages st |}.

Definition setVideos (f : list VideoChat -> list VideoChat) (st : State) : State :=
  {| url := url st; loading := loading st; status := status st;
     videos := f (videos st);
     activeVideoId := activeVideoId st; question := question st;
     currentMessages := currentMessages st |}.

Definition setActiveVideoId (v : option string) (st : State) : State :=
  {| url := url st; loading := loading st; status := status st; videos := videos st;
     activeVideoId := v; question := question st;
     currentMessages := currentMessages st |}.

Definition setQuestion (v : string) (st : State) : State :=
  {| url := url st; loading := loading st; status := status st; videos := videos st;
     activeVideoId := activeVideoId st; question := v;
     currentMessages := currentMessages st |}.

Definition setCurrentMessages (f : list Message -> list Message) (st : State) : State :=
  {| url := url st; loading := loading st; status := status st; videos := videos st;
     activeVideoId := activeVideoId st; question := question st;
     currentMessages := f (currentMessages st) |}.

(** [POST /ingest-video] as this page reads it. *)
Record ingest_json : Type := mkIngestJson {
  video_id : string;
  chunk_count : nat
}.

(** *** handleProcess *)

Definition handleProcess_begin (r : State) : option (string * State) :=
  if negb (truthy (url r)) then None
  else Some (url r, setStatus "Processing video..." (setLoading true r)).

Definition handleProcess_try (r : State) (o : settled (Response ingest_json))
  (st : State) : settled State :=
  res <- await o ;;
  if negb (ok res) then
    (t <- await text res ;; throw (ErrorObject t))
  else
    data <- await json res ;;
    let videoId' := video_id data in
    Fulfilled
      (setUrl ""
        (setStatus ("Ingested successfully! (" ++ numberToString (chunk_count data)
                      ++ " chunks)")
          (setCurrentMessages (fun _ => [])
            (setActiveVideoId (Some videoId')
              (setVideos
                 (fun prev =>
                    prev ++ [{| videoId := videoId';
                                title := or_else (lastSegment "" (url r)) "Video";
                                messages := [] |}])
                 st))))).

Definition handleProcess_settle (r : State) (o : settled (Response ingest_json))
  (st : State) : State :=
  setLoading false
    (tryCatch (handleProcess_try r o st)
       (fun err => setStatus ("Error: " ++ messageOr "Unknown error" err) st)).

(** *** handleSend *)

Record query_body : Type := mkQueryBody {
  body_question : string;
  body_video_id : string;
  top_k : nat
}.

Definition handleSend_begin (r : State) : option (query_body * State) :=
  match activeVideoId r with
  | None => None
  | Some active =>
      if negb (truthy (trim (question r))) || negb (truthy active) then None
      else
        let userMessage := {| role := user; content := question r |} in
        Some ({| body_question := question r; body_video_id := active; top_k := 5 |},
              setLoading true
                (setQuestion ""
                   (setCurrentMessages (fun prev => prev ++ [userMessage]) r)))
  end.

Definition handleSend_try (r : State) (active : string)
  (o : settled (Response query_json)) (st : State) : settled State :=
  res <- await o ;;
  if negb (ok res) then
    (t <- await text res ;; throw (ErrorObject t))
  else
    data <- await json res ;;
    let userMessage := {| role := user; content := question r |} in
    let aiMessage := {| role := assistant; content := response data |} in
    Fulfilled
      (setVideos
         (fun prev =>
            map (fun v =>
                   if videoId v =? active
                   then {| videoId := videoId v; title := title v;
                           messages := messages v ++ [userMessage; aiMessage] |}
                   else v) prev)
         (setCurrentMessages (fun prev => prev ++ [aiMessage]) st)).

Definition handleSend_settle (r : State) (o : settled (Response query_json))
  (st : State) : State :=
  match activeVideoId r with
  | None => st
  | Some active =>
      setLoading false
        (tryCatch (handleSend_try r active o st)
           (fun err =>
              setCurrentMessages
                (fun prev =>
                   prev ++ [{| role := assistant;
                               content := "Error: " ++ messageOr "Failed to query" err |}])
                st))
  end.

(** The sidebar button of a video. *)
Definition selectVideo (video : VideoChat) (st : State) : State :=
  setCurrentMessages (fun _ => messages video)
    (setActiveVideoId (Some (videoId video)) st).

End VideoChatHome.

(** ** The store operations of the specification, as the page performs them *)

Module Store.

Import Home.

(** [hydrate] is a successful listing, [upsertNew] a successful ingest typed
    and started from the current page, [remove] the delete button; each one
    runs to completion before the next starts. *)
Inductive op : Type :=
| hydrate (rows : list video_row)
| upsertNew (typedUrl typedTitle : string) (data : ingest_json)
| remove (key : string).

Definition apply (st : State) (o : op) : State :=
  match o with
  | hydrate rows => fetchVideosFromDB_settle (Page.ok200 (JsonArray rows)) st
  | upsertNew u t data =>
      let r := setTitleInput t (setUrlInput u st) in
      match handleIngest_begin r with
      | Some (_, st') => handleIngest_settle r (Page.ok200 data) st'
      | None => r
      end
  | remove k => handleDelete k st
  end.

Definition runOps (ops : list op) (st : State) : State := fold_left apply ops st.

Definition keys (st : State) : list string := map uniqueId (sessions st).

Fixpoint distinct (l : list string) : bool :=
  match l with
  | [] => true
  | k :: l' => negb (existsb (String.eqb k) l') && distinct l'
  end.

(** An operation that cannot by itself bring in a repeated key: a listing
    with pairwise distinct urls, an ingest whose returned key is not in the
    collection yet. *)
Definition bringsNoRepeat (st : State) (o : op) : bool :=
  match o with
  | hydrate rows => distinct (map url rows)
  | upsertNew _ _ data => negb (existsb (String.eqb (video_url data)) (keys st))
  | remove _ => true
  end.

Fixpoint noRepeatAlong (ops : list op) (st : State) : bool :=
  match ops with
  | [] => true
  | o :: ops' => bringsNoRepeat st o && noRepeatAlong ops' (apply st o)
  end.

(** A session with one more message at the end of its history. *)
Definition withMessage (s : ChatSession) (m : Message) : ChatSession :=
  {| id := id s; uniqueId := uniqueId s; title := title s;
     messages := messages s ++ [m] |}.

(** What [addMessageToSession key m] does to one session of the collection. *)
Definition deliver (key : string) (m : Message) (s : ChatSession) : ChatSession :=
  if uniqueId s =? key then withMessage s m else s.

(** The failures of a request named by the specification, with the error
    text each one carries: the message of a transport error, the body of a
    response whose status is not a success. *)
Inductive failsWith {J : Type} : settled (Response J) -> string -> Prop :=
| transport_error (m : string) :
    failsWith (Rejected (ErrorObject m)) m
| http_error (res : Response J) (body : string) :
    ok res = false -> text res = Fulfilled body ->
    failsWith (Fulfilled res) body.


(** The request was answered, with a status that is not a success. *)
Definition answeredWithError {J : Type} (o : settled (Response J)) : bool :=
  match o with
  | Fulfilled res => negb (ok res)
  | Rejected _ => false
  end.

End Store.

(** ** Scenarios on the rendered page *)

Module Scenario.

Import Home Page.

Definition rowA : video_row := {| url := "a"; description := "first video" |}.

Definition ingestedB : ingest_json :=
  {| video_url := "b"; video_description := None |}.

(** A listed session is deleted while an ingest is in flight. *)
Definition deleteDuringIngest : list event :=
  [ Settles 0 (Listed (ok200 (JsonArray [rowA])));
    TypeUrl "https://youtu.be/b"; StartChat;
    DeleteSession "a";
    Settles 0 (Ingested (ok200 ingestedB)) ].

(** The listing arrives while an ingest is in flight. *)
Definition listingDuringIngest : list event :=
  [ TypeUrl "https://youtu.be/b"; StartChat;
    Settles 0 (Listed (ok200 (JsonArray [rowA])));
    Settles 0 (Ingested (ok200 ingestedB)) ].

(** The same video is ingested twice. *)
Definition ingestTwice : list event :=
  [ TypeUrl "https://youtu.be/b"; StartChat;
    Settles 1 (Ingested (ok200 ingestedB));
    NewVideoChat;
    TypeUrl "https://youtu.be/b"; StartChat;
    Settles 1 (Ingested (ok200 ingestedB)) ].


(** Section 8 of the specification: session a is active, a question is
    sent, a is deleted and b becomes active before the answer arrives. *)
Definition rowB : video_row := {| url := "b"; description := "second video" |}.

Definition deletedBeforeAnswer : list event :=
  [ Settles 0 (Listed (ok200 (JsonArray [rowA; rowB])));
    SelectSession "a";
    TypeQuestion "What is this about?"; Send;
    DeleteSession "a";
    SelectSession "b";
    Settles 0 (Answered (ok200 {| response := "It's a cooking tutorial." |})) ].

(** The page just before that question is sent, the request it sends and
    the page just after, and the page when the answer arrives. *)
Definition beforeSend : State :=
  page (run [ Settles 0 (Listed (ok200 (JsonArray [rowA; rowB])));
              SelectSession "a";
              TypeQuestion "What is this about?" ] mounted).

Definition sentBody : query_body :=
  {| question := "What is this about?"; body_video_url := "a"; top_k := 8 |}.

Definition afterSend : State :=
  page (run (firstn 4 deletedBeforeAnswer) mounted).

Definition whenAnswered : State :=
  page (run (firstn 6 deletedBeforeAnswer) mounted).

Definition cookingAnswer : settled (Response query_json) :=
  ok200 {| response := "It's a cooking tutorial." |}.

(** The same question typed with blanks around it. *)
Definition paddedQuestion : string := "  What is this about? ".

Definition beforeSendPadded : State := setQuestionInput paddedQuestion beforeSend.

(** The video-list page with one ingested video selected and that question
    typed. *)
Definition videoListBeforeSend : VideoChatHome.State :=
  {| VideoChatHome.url := ""; VideoChatHome.loading := false;
     VideoChatHome.status := "";
     VideoChatHome.videos :=
       [ {| VideoChatHome.videoId := "v1"; VideoChatHome.title := "b";
            VideoChatHome.messages := [] |} ];
     VideoChatHome.activeVideoId := Some "v1";
     VideoChatHome.question := paddedQuestion;
     VideoChatHome.currentMessages := [] |}.

(** The page with a url typed, and a listing of two videos. *)
Definition beforeIngest : State :=
  page (run [ Settles 0 (Listed (ok200 (JsonArray [rowA])));
              TypeUrl "https://youtu.be/b" ] mounted).

Definition twoRows : list video_row :=
  [ {| url := "u1"; description := "d1" |};
    {| url := "u2"; description := "d2" |} ].

End Scenario.

(** ** Vocabulary for the runs of the page *)

Module Reach.

Import Home Page.

(** The requests started by a button, as opposed to the listing issued at
    mount. *)
Definition foreground (q : request) : bool :=
  match q with
  | ListVideos => false
  | IngestVideo _ _ => true
  | Query _ _ => true
  end.

(** How many ingest and query requests are pending. *)
Definition busy (s : system) : nat := length (filter foreground (inflight s)).

Definition listingPending (s : system) : bool :=
  existsb (fun q => negb (foreground q)) (inflight s).

(** The active pointer is absent or is the key of a session of the
    collection. *)
Definition pointerValid (st : State) : bool :=
  match activeSessionId st with
  | None => true
  | Some k => listed k st
  end.

(** Events that neither add nor remove sessions: all but the delete button
    and the settlement of a listing or of an ingest. *)
Definition keepsCollection (e : event) : bool :=
  match e with
  | DeleteSession _ => false
  | Settles _ (Listed _) => false
  | Settles _ (Ingested _) => false
  | _ => true
  end.

(** What identifies a session in the sidebar and towards the backend. *)
Definition header (c : ChatSession) : string * string * string :=
  (id c, uniqueId c, title c).

Definition idIsKey (c : ChatSession) : Prop := id c = uniqueId c.

(** What a pending request has kept of the render it was started in. *)
Definition wellCaptured (q : request) : Prop :=
  match q with
  | ListVideos => True
  | IngestVideo r _ => Forall idIsKey (sessions r)
  | Query r body =>
      Forall idIsKey (sessions r) /\
      exists chat : ChatSession,
        activeChat r = Some chat /\
        body = {| question := questionInput r; body_video_url := id chat;
                  top_k := 8 |}
  end.

(** The busy flag counts the pending ingest and query requests, every
    session has its key as backend identifier, and so had the sessions of
    the renders kept by the pending requests. *)
Definition consistent (s : system) : Prop :=
  busy s = (if loading (page s) then 1 else 0) /\
  Forall idIsKey (sessions (page s)) /\
  Forall wellCaptured (inflight s).

Fixpoint allWhiteSpace (s : string) : bool :=
  match s with
  | EmptyString => true
  | String c s' => isWhiteSpace c && allWhiteSpace s'
  end.

(** The first row of a listing with a given url. *)
Definition rowOf (k : string) (rows : list video_row) : option video_row :=
  find (fun v => url v =? k) rows.

(** An ingest completes, then the listing arrives without its video. *)
Definition listingAfterIngest : list event :=
  [ TypeUrl "https://youtu.be/b"; StartChat;
    Settles 1 (Ingested (ok200 Scenario.ingestedB));
    Settles 0 (Listed (ok200 (JsonArray [Scenario.rowA]))) ].

End Reach.

(** ** The video-list page as an event-driven system

    The controls rendered by src/frontend/src/app/page.tsx, the handlers
    they run, and the requests in flight. *)

Module VideoListPage.

Import VideoChatHome.

(** [const activeChat = videos.find(v => v.videoId === activeVideoId)] *)
Definition activeChat (r : State) : option VideoChat :=
  match activeVideoId r with
  | Some k => find (fun v => videoId v =? k) (videos r)
  | None => None
  end.

Inductive request : Type :=
| IngestVideo (r : State) (sentUrl : string)
| Query (r : State) (body : query_body).

Inductive outcome : Type :=
| Ingested (o : settled (Response ingest_json))
| Answered (o : settled (Response query_json)).

Inductive event : Type :=
| TypeUrl (v : string)
| Ingest                      (* the "Ingest" button: handleProcess *)
| SelectVideo (n : nat)       (* the sidebar button of the n-th video *)
| TypeQuestion (v : string)
| PressEnter                  (* Enter in the question input: handleSend *)
| ClickSend                   (* the "Send" button: handleSend *)
| Settles (n : nat) (o : outcome).

Record system : Type := mkSystem {
  page : State;
  inflight : list request
}.

Definition start : system := {| page := initial; inflight := [] |}.

(** [{activeVideoId && (<footer>...)}] *)
Definition showsFooter (st : State) : bool :=
  match activeVideoId st with
  | Some k => truthy k
  | None => false
  end.

Definition matches (q : request) (o : outcome) : bool :=
  match q, o with
  | IngestVideo _ _, Ingested _ => true
  | Query _ _, Answered _ => true
  | _, _ => false
  end.

Definition enabled (s : system) (e : event) : bool :=
  let st := page s in
  match e with
  | TypeUrl _ => negb (loading st)
  | Ingest => negb (loading st || negb (truthy (trim (url st))))
  | SelectVideo n =>
      match nth_error (videos st) n with Some _ => true | None => false end
  | TypeQuestion _ => showsFooter st && negb (loading st)
  | PressEnter => showsFooter st && negb (loading st)
  | ClickSend =>
      showsFooter st && negb (loading st || negb (truthy (trim (question st))))
  | Settles n o =>
      match nth_error (inflight s) n with
      | Some q => matches q o
      | None => false
      end
  end.

Definition settle (q : request) (o : outcome) (st : State) : State :=
  match q, o with
  | IngestVideo r _, Ingested o' => handleProcess_settle r o' st
  | Query r _, Answered o' => handleSend_settle r o' st
  | _, _ => st
  end.

Definition send (s : system) : system :=
  match handleSend_begin (page s) with
  | Some (body, st') =>
      {| page := st'; inflight := inflight s ++ [Query (page s) body] |}
  | None => s
  end.

Definition fire (s : system) (e : event) : system :=
  let st := page s in
  match e with
  | TypeUrl v => {| page := setUrl v st; inflight := inflight s |}
  | Ingest =>
      match handleProcess_begin st with
      | Some (sent, st') =>
          {| page := st'; inflight := inflight s ++ [IngestVideo st sent] |}
      | None => s
      end
  | SelectVideo n =>
      match nth_error (videos st) n with
      | Some video => {| page := selectVideo video st; inflight := inflight s |}
      | None => s
      end
  | TypeQuestion v => {| page := setQuestion v st; inflight := inflight s |}
  | PressEnter => send s
  | ClickSend => send s
  | Settles n o =>
      match nth_error (inflight s) n with
      | Some q =>
          {| page := settle q o st;
             inflight := firstn n (inflight s) ++ skipn (S n) (inflight s) |}
      | None => s
      end
  end.

Definition step (s : system) (e : event) : system :=
  if enabled s e then fire s e else s.

Definition run (es : list event) (s : system) : system := fold_left step es s.

(** The busy flag counts the pending requests, and every pending query was
    sent with a video selected. *)
Definition consistent (s : system) : Prop :=
  length (inflight s) = (if loading (page s) then 1 else 0) /\
  Forall (fun q => match q with
                   | Query r _ => exists k, activeVideoId r = Some k
                   | IngestVideo _ _ => True
                   end) (inflight s).

(** What a successful answer does to one video of the list: the question
    and the answer at the end of its history when it has the given id. *)
Definition deliverExchange (active : string) (u a : Message) (v : VideoChat)
  : VideoChat :=
  if videoId v =? active
  then {| videoId := videoId v; title := title v;
          messages := messages v ++ [u; a] |}
  else v.

(** A video is ingested and selected, a question is sent and fails. *)
Definition failedQuestion : list event :=
  [ TypeUrl "https://youtu.be/b"; Ingest;
    Settles 0 (Ingested (Page.ok200 {| video_id := "v1"; chunk_count := 12 |}));
    TypeQuestion "What is this about?"; ClickSend;
    Settles 0 (Answered (Page.status500 "model not loaded"));
    SelectVideo 0 ].

(** The page of that run when the question has been typed. *)
Definition beforeQuestion : State :=
  {| url := ""; loading := false;
     status := "Ingested successfully! (12 chunks)";
     videos := [ {| videoId := "v1"; title := "b"; messages := [] |} ];
     activeVideoId := Some "v1";
     question := "What is this about?";
     currentMessages := [] |}.

End VideoListPage.

(** ** Runs in which requests and other events interleave *)

Module Races.

Import Home.

(** A video is ingested and a question is sent about it; the listing,
    pending since mount, then arrives with that video, and the answer
    after it. *)
Definition listingBetween : list Page.event :=
  [ Page.TypeUrl "https://youtu.be/b"; Page.StartChat;
    Page.Settles 1 (Page.Ingested (Page.ok200 Scenario.ingestedB));
    Page.TypeQuestion "What is this about?"; Page.Send;
    Page.Settles 0 (Page.Listed (Page.ok200 (JsonArray [Scenario.rowB])));
    Page.Settles 0 (Page.Answered Scenario.cookingAnswer) ].

(** The body of a successful ingest response, if the outcome is one. *)
Definition ingested (o : settled (Response ingest_json)) : option ingest_json :=
  match o with
  | Fulfilled res =>
      if ok res
      then match json res with Fulfilled data => Some data | Rejected _ => None end
      else None
  | Rejected _ => None
  end.

(** The records of a successful listing response, if the outcome is one. *)
Definition listedRows (o : settled (Response listing)) : option (list video_row) :=
  match o with
  | Fulfilled res =>
      if ok res
      then match json res with
           | Fulfilled (JsonArray rows) => Some rows
           | _ => None
           end
      else None
  | Rejected _ => None
  end.

(** An event that cannot by itself bring in a repeated key: a listing that
    is taken has pairwise distinct urls; a successful ingest settles with
    the collection as it was when the ingest was started and returns a key
    that is not in it.  Every other event qualifies. *)
Definition bringsNoRepeat (s : Page.system) (e : Page.event) : Prop :=
  match e with
  | Page.Settles n (Page.Listed o) =>
      match nth_error (Page.inflight s) n, listedRows o with
      | Some Page.ListVideos, Some rows => Store.distinct (map url rows) = true
      | _, _ => True
      end
  | Page.Settles n (Page.Ingested o) =>
      match nth_error (Page.inflight s) n, ingested o with
      | Some (Page.IngestVideo r _), Some data =>
          sessions r = sessions (Page.page s) /\
          existsb (String.eqb (video_url data)) (Store.keys (Page.page s)) = false
      | _, _ => True
      end
  | _ => True
  end.

Fixpoint noRepeatAlong (es : list Page.event) (s : Page.system) : Prop :=
  match es with
  | [] => True
  | e :: es' => bringsNoRepeat s e /\ noRepeatAlong es' (Page.step s e)
  end.

(** A listing, an ingest nothing interferes with, a deletion. *)
Definition undisturbed : list Page.event :=
  [ Page.Settles 0 (Page.Listed (Page.ok200 (JsonArray [Scenario.rowA])));
    Page.TypeUrl "https://youtu.be/b"; Page.StartChat;
    Page.Settles 0 (Page.Ingested (Page.ok200 Scenario.ingestedB));
    Page.DeleteSession "a" ].

(** Session a is listed, its video is ingested again and a is deleted
    while that request is pending. *)
Definition staleReingest : list Page.event :=
  [ Page.Settles 0 (Page.Listed (Page.ok200 (JsonArray [Scenario.rowA])));
    Page.TypeUrl "https://youtu.be/a"; Page.StartChat;
    Page.DeleteSession "a";
    Page.Settles 0
      (Page.Ingested (Page.ok200 {| video_url := "a"; video_description := None |})) ].

(** Every event of a run of the video-list page was offered at its turn. *)
Fixpoint videoListOffered (es : list VideoListPage.event) (s : VideoListPage.system)
  : bool :=
  match es with
  | [] => true
  | e :: es' =>
      VideoListPage.enabled s e && videoListOffered es' (VideoListPage.step s e)
  end.



End Races.

(** * Properties *)

Unset Implicit Arguments.

Import Home.

(** Opens the [try]/[catch] of the handlers. *)
Ltac open_try :=
  unfold handleSend_settle, handleSend_try,
         handleIngest_settle, handleIngest_try,
         fetchVideosFromDB_settle, fetchVideosFromDB_try,
         VideoChatHome.handleSend_settle, VideoChatHome.handleSend_try,
         VideoChatHome.handleProcess_settle, VideoChatHome.handleProcess_try,
         tryCatch, bind.

(** ** The JavaScript helpers on examples *)

Example trim_drops_outer_blanks :
  trim "  What is this about? " = "What is this about?" /\
  trim "   " = "" /\ truthy (trim "   ") = false.
Proof. repeat split. Qed.

Example or_else_skips_empty :
  or_else "" "Video 1" = "Video 1" /\ or_else "Cooking" "Video 1" = "Cooking" /\
  opt_or_else None "Video 1" = "Video 1" /\
  opt_or_else (Some "") "Video 1" = "Video 1".
Proof. repeat split. Qed.

Example placeholder_counts_sessions :
  placeholderTitle initial = "Video 1" /\
  lastSegment "" "https://youtu.be/abc" = "abc".
Proof. repeat split. Qed.

(** ** Lists of sessions *)

Section SessionLists.

Variable k : string.
Variable m : Message.

Lemma sessions_addMessage (st : State) :
  sessions (addMessageToSession k m st) = map (Store.deliver k m) (sessions st).
Proof. reflexivity. Qed.

Lemma deliver_keeps_key (s : ChatSession) :
  uniqueId (Store.deliver k m s) = uniqueId s.
Proof. unfold Store.deliver. destruct (uniqueId s =? k); reflexivity. Qed.

Lemma deliver_absent (l : list ChatSession) :
  (forall s, In s l -> uniqueId s <> k) -> map (Store.deliver k m) l = l.
Proof.
  induction l as [|s l IH]; intros Hl; simpl.
  - reflexivity.
  - rewrite IH by (intros s' Hs'; apply Hl; right; exact Hs').
    unfold Store.deliver.
    destruct (String.eqb_spec (uniqueId s) k) as [E|_].
    + exfalso. apply (Hl s); [left; reflexivity | exact E].
    + reflexivity.
Qed.

Lemma find_deliver (a : option string) (l : list ChatSession) :
  find (isActive a) (map (Store.deliver k m) l)
  = option_map (Store.deliver k m) (find (isActive a) l).
Proof.
  induction l as [|s l IH]; simpl.
  - reflexivity.
  - replace (isActive a (Store.deliver k m s)) with (isActive a s)
      by (unfold isActive; rewrite deliver_keeps_key; reflexivity).
    destruct (isActive a s); [reflexivity | exact IH].
Qed.

Lemma deliver_pointwise (l : list ChatSession) :
  Forall2 (fun s s' =>
             (uniqueId s = k -> s' = Store.withMessage s m) /\
             (uniqueId s <> k -> s' = s))
          l (map (Store.deliver k m) l).
Proof.
  induction l as [|s l IH]; simpl; constructor; [|exact IH].
  unfold Store.deliver.
  destruct (String.eqb_spec (uniqueId s) k) as [E|N]; split; intros H;
    congruence.
Qed.

End SessionLists.

Lemma find_active_key (a : option string) (l : list ChatSession) (c : ChatSession) :
  find (isActive a) l = Some c -> a = Some (uniqueId c) /\ In c l.
Proof.
  intros H. apply find_some in H. destruct H as [Hin Hact].
  split; [|exact Hin].
  unfold isActive in Hact. destruct a as [k|]; [|discriminate].
  apply String.eqb_eq in Hact. congruence.
Qed.

Lemma state_eta (st : State) :
  {| sessions := sessions st; activeSessionId := activeSessionId st;
     urlInput := urlInput st; titleInput := titleInput st;
     questionInput := questionInput st; loading := loading st;
     statusText := statusText st; alerted := alerted st;
     logged := logged st |} = st.
Proof. destruct st; reflexivity. Qed.

(** What [handleSend_settle] appends: the answer of a successful response,
    the fixed error text otherwise. *)
Lemma handleSend_settle_delivers (r : State) (chat : ChatSession)
  (o : settled (Response query_json)) (st : State) :
  activeChat r = Some chat ->
  exists reply : Message,
    role reply = assistant /\
    handleSend_settle r o st =
      setLoading false (addMessageToSession (uniqueId chat) reply st) /\
    (forall res data, o = Fulfilled res -> ok res = true ->
       json res = Fulfilled data -> content reply = response data) /\
    (forall t, Store.failsWith o t ->
       content reply = "Error: Failed to get response.").
Proof.
  intros Hc. unfold handleSend_settle. rewrite Hc.
  unfold handleSend_try, tryCatch, bind.
  destruct o as [res|err].
  - destruct (ok res) eqn:Hok; simpl.
    + destruct (json res) as [data|err] eqn:Hj.
      * exists {| role := assistant; content := response data |}.
        repeat split; try reflexivity.
        -- intros res' data' E _ Hj'. inversion E; subst res'.
           rewrite Hj in Hj'. inversion Hj'. reflexivity.
        -- intros t F. inversion F; subst. congruence.
      * exists {| role := assistant; content := "Error: Failed to get response." |}.
        repeat split; try reflexivity.
        intros res' data' E _ Hj'. inversion E; subst res'. congruence.
    + exists {| role := assistant; content := "Error: Failed to get response." |}.
      repeat split; try reflexivity.
      * destruct (text res); reflexivity.
      * intros res' data' E Hok' _. inversion E; subst res'. congruence.
  - exists {| role := assistant; content := "Error: Failed to get response." |}.
    repeat split; try reflexivity.
    intros res data E. discriminate E.
Qed.

Lemma handleSend_begin_inv (r : State) (body : query_body) (st1 : State) :
  handleSend_begin r = Some (body, st1) ->
  exists chat,
    activeChat r = Some chat /\
    truthy (trim (questionInput r)) = true /\
    body = {| question := questionInput r; body_video_url := id chat; top_k := 8 |} /\
    st1 = setLoading true
            (addMessageToSession (uniqueId chat)
               {| role := user; content := questionInput r |}
               (setQuestionInput "" r)).
Proof.
  unfold handleSend_begin. intros H.
  destruct (activeChat r) as [chat|]; [|discriminate].
  destruct (truthy (trim (questionInput r))); simpl in H; [|discriminate].
  inversion H; subst. exists chat. repeat split; reflexivity.
Qed.

(** ** Routing of the answer *)

(** The session-store page.  For every query submitted against an active
    session, the assistant
    message appended when the request settles (the answer, or the error
    placeholder) is appended to the sessions whose key is the key captured
    at submission, and every session with another key is left as it is.
    The state [st] at settlement is arbitrary: another session may be
    active, the captured session may be gone, and the active pointer of
    [st] has no influence on the collection that results. *)
Theorem reply_routed_by_captured_key :
  forall (r : State) (body : query_body) (st1 : State)
         (o : settled (Response query_json)) (st : State),
    handleSend_begin r = Some (body, st1) ->
    exists (chat : ChatSession) (reply : Message),
      activeChat r = Some chat /\
      activeSessionId r = Some (uniqueId chat) /\
      role reply = assistant /\
      (forall (res : Response query_json) (data : query_json),
          o = Fulfilled res -> ok res = true -> json res = Fulfilled data ->
          content reply = response data) /\
      (forall t : string,
          Store.failsWith o t -> content reply = "Error: Failed to get response.") /\
      Forall2 (fun s s' =>
                 (uniqueId s = uniqueId chat -> s' = Store.withMessage s reply) /\
                 (uniqueId s <> uniqueId chat -> s' = s))
              (sessions st) (sessions (handleSend_settle r o st)) /\
      (forall a : option string,
          sessions (handleSend_settle r o (setActiveSessionId a st))
          = sessions (handleSend_settle r o st)) /\
      activeSessionId (handleSend_settle r o st) = activeSessionId st.
Proof.
  intros r body st1 o st Hb.
  destruct (handleSend_begin_inv r body st1 Hb) as (chat & Hc & _ & _ & _).
  destruct (handleSend_settle_delivers r chat o st Hc)
    as (reply & Hrole & Hst & Hanswer & Hfailed).
  exists chat, reply.
  split; [exact Hc|].
  split; [apply (find_active_key _ _ _ Hc)|].
  split; [exact Hrole|].
  split; [exact Hanswer|].
  split; [exact Hfailed|].
  split; [|split].
  - rewrite Hst. simpl. apply deliver_pointwise.
  - intros a. open_try. rewrite Hc.
    destruct o as [res|err]; [|reflexivity].
    destruct (ok res); simpl.
    + destruct (json res); reflexivity.
    + destruct (text res); reflexivity.
  - rewrite Hst. reflexivity.
Qed.

Lemma reply_routed_by_captured_key_witness :
  exists (chat : ChatSession) (reply : Message),
    activeChat Scenario.beforeSend = Some chat /\
    activeSessionId Scenario.beforeSend = Some (uniqueId chat) /\
    role reply = assistant /\
    (forall (res : Response query_json) (data : query_json),
        Scenario.cookingAnswer = Fulfilled res -> ok res = true ->
        json res = Fulfilled data -> content reply = response data) /\
    (forall t : string,
        Store.failsWith Scenario.cookingAnswer t ->
        content reply = "Error: Failed to get response.") /\
    Forall2 (fun s s' =>
               (uniqueId s = uniqueId chat -> s' = Store.withMessage s reply) /\
               (uniqueId s <> uniqueId chat -> s' = s))
            (sessions Scenario.whenAnswered)
            (sessions (handleSend_settle Scenario.beforeSend Scenario.cookingAnswer
                         Scenario.whenAnswered)) /\
    (forall a : option string,
        sessions (handleSend_settle Scenario.beforeSend Scenario.cookingAnswer
                    (setActiveSessionId a Scenario.whenAnswered))
        = sessions (handleSend_settle Scenario.beforeSend Scenario.cookingAnswer
                      Scenario.whenAnswered)) /\
    activeSessionId (handleSend_settle Scenario.beforeSend Scenario.cookingAnswer
                       Scenario.whenAnswered)
    = activeSessionId Scenario.whenAnswered.
Proof.
  apply (reply_routed_by_captured_key Scenario.beforeSend Scenario.sentBody
           Scenario.afterSend Scenario.cookingAnswer Scenario.whenAnswered).
  reflexivity.
Defined.

(** ** Appending under a key that is not there *)

(** C2.  [addMessageToSession k m] in a state where no session has key [k]
    returns the very same state, however often it is repeated; so when the
    session a question was sent from has been deleted by the time the
    request settles, the collection after settlement is the collection
    before it (no session with the deleted key, every other history as it
    was) and the active pointer is untouched. *)
Theorem appendMessage_missing_key_noop :
  forall (k : string) (m : Message) (st : State),
    Page.listed k st = false ->
    addMessageToSession k m st = st /\
    (forall n : nat, Nat.iter n (addMessageToSession k m) st = st) /\
    (forall (r : State) (chat : ChatSession) (o : settled (Response query_json)),
        activeChat r = Some chat -> uniqueId chat = k ->
        sessions (handleSend_settle r o st) = sessions st /\
        Page.listed k (handleSend_settle r o st) = false /\
        activeSessionId (handleSend_settle r o st) = activeSessionId st).
Proof.
  intros k m st Habs.
  assert (Hno : forall s, In s (sessions st) -> uniqueId s <> k).
  { intros s Hin E. unfold Page.listed in Habs.
    assert (existsb (fun s0 => uniqueId s0 =? k) (sessions st) = true) as Ht.
    { apply existsb_exists. exists s. split; [exact Hin|].
      apply String.eqb_eq. exact E. }
    congruence. }
  assert (Hid : forall m', addMessageToSession k m' st = st).
  { intros m'. unfold addMessageToSession, setSessions.
    change (map _ (sessions st)) with (map (Store.deliver k m') (sessions st)).
    rewrite (deliver_absent k m' _ Hno). apply state_eta. }
  split; [apply Hid|]. split.
  - induction n as [|n IH]; simpl; [reflexivity|].
    rewrite IH. apply Hid.
  - intros r chat o Hc Hk.
    destruct (handleSend_settle_delivers r chat o st Hc) as (reply & _ & Hst & _ & _).
    rewrite Hst, Hk, Hid. simpl. repeat split. exact Habs.
Qed.

Lemma appendMessage_missing_key_noop_witness :
  addMessageToSession "a" {| role := assistant; content := "late answer" |}
    Scenario.whenAnswered = Scenario.whenAnswered /\
  sessions (handleSend_settle Scenario.beforeSend Scenario.cookingAnswer
              Scenario.whenAnswered)
  = sessions Scenario.whenAnswered.
Proof.
  destruct (appendMessage_missing_key_noop "a"
              {| role := assistant; content := "late answer" |}
              Scenario.whenAnswered eq_refl) as (H1 & _ & H3).
  split; [exact H1|].
  apply (H3 Scenario.beforeSend
            {| id := "a"; uniqueId := "a"; title := "first video"; messages := [] |}
            Scenario.cookingAnswer eq_refl eq_refl).
Defined.

(** ** Deleting a session *)

(** C9.  After [handleDelete k] no session of the collection has key [k],
    the sessions with another key are all still there; the active pointer
    is absent when it was [k], and unchanged when it was anything else. *)
Theorem remove_drops_session_and_pointer :
  forall (k : string) (st : State),
    Page.listed k (handleDelete k st) = false /\
    (forall s, In s (sessions (handleDelete k st)) <->
               In s (sessions st) /\ uniqueId s <> k) /\
    (activeSessionId st = Some k -> activeSessionId (handleDelete k st) = None) /\
    (activeSessionId st <> Some k ->
     activeSessionId (handleDelete k st) = activeSessionId st).
Proof.
  intros k st.
  assert (Hs : sessions (handleDelete k st)
               = filter (fun s => negb (uniqueId s =? k)) (sessions st)).
  { unfold handleDelete. destruct (activeSessionId st) as [a|]; [|reflexivity].
    destruct (a =? k); reflexivity. }
  assert (Hin : forall s, In s (sessions (handleDelete k st)) <->
                          In s (sessions st) /\ uniqueId s <> k).
  { intros s. rewrite Hs, filter_In.
    destruct (String.eqb_spec (uniqueId s) k) as [E|N]; simpl; split;
      intros [H1 H2]; split; auto; congruence. }
  split; [|split; [exact Hin|split]].
  - unfold Page.listed.
    destruct (existsb _ (sessions (handleDelete k st))) eqn:E; [|reflexivity].
    apply existsb_exists in E. destruct E as (s & Hs' & Hk).
    apply Hin in Hs'. apply String.eqb_eq in Hk. tauto.
  - intros Ha. unfold handleDelete. rewrite Ha, String.eqb_refl. reflexivity.
  - intros Ha. destruct st as [ss act u t q l stx al lg].
    unfold handleDelete; simpl in *.
    destruct act as [a|]; [|reflexivity].
    destruct (String.eqb_spec a k) as [E|N]; [congruence|reflexivity].
Qed.

Lemma remove_drops_session_and_pointer_witness :
  Page.listed "a" (handleDelete "a" Scenario.afterSend) = false /\
  activeSessionId (handleDelete "a" Scenario.afterSend) = None /\
  activeSessionId (handleDelete "b" Scenario.afterSend) = Some "a".
Proof.
  destruct (remove_drops_session_and_pointer "a" Scenario.afterSend)
    as (H1 & _ & H2 & _).
  destruct (remove_drops_session_and_pointer "b" Scenario.afterSend)
    as (_ & _ & _ & H3).
  split; [exact H1|]. split.
  - apply H2. reflexivity.
  - rewrite H3; [reflexivity | discriminate].
Defined.

(** ** Sending a question *)

(** The active session after the synchronous part of [handleSend]. *)
Lemma activeChat_after_user_message (r : State) (chat : ChatSession) (u : Message) :
  activeChat r = Some chat ->
  activeChat
    (setLoading true
       (addMessageToSession (uniqueId chat) u (setQuestionInput "" r)))
  = Some (Store.withMessage chat u).
Proof.
  intros Hc. unfold activeChat in *. simpl.
  change (map _ (sessions r)) with (map (Store.deliver (uniqueId chat) u) (sessions r)).
  rewrite find_deliver, Hc. simpl. unfold Store.deliver.
  rewrite String.eqb_refl. reflexivity.
Qed.

(** The session-store page, when nothing happens between submission and
    settlement.  With an active session and a question that is not empty after
    trimming, [handleSend] goes past its guard and, before the request is
    issued, the history of the active session is its previous history
    followed by one user message holding the question; when the request then
    settles with a successful response, the history is the previous history
    followed by that user message and one assistant message holding the
    response, in this order. *)
Theorem send_appends_question_then_answer :
  forall (r : State) (chat : ChatSession),
    activeChat r = Some chat ->
    truthy (trim (questionInput r)) = true ->
    exists (body : query_body) (st1 : State) (chat1 : ChatSession),
      handleSend_begin r = Some (body, st1) /\
      activeChat st1 = Some chat1 /\
      messages chat1
      = messages chat ++ [ {| role := user; content := questionInput r |} ] /\
      forall (res : Response query_json) (data : query_json),
        ok res = true -> json res = Fulfilled data ->
        exists chat2 : ChatSession,
          activeChat (handleSend_settle r (Fulfilled res) st1) = Some chat2 /\
          messages chat2
          = messages chat ++ [ {| role := user; content := questionInput r |};
                               {| role := assistant; content := response data |} ].
Proof.
  intros r chat Hc Hq.
  set (u := {| role := user; content := questionInput r |}).
  assert (Hkey : (uniqueId chat =? uniqueId chat) = true) by apply String.eqb_refl.
  pose proof (activeChat_after_user_message r chat u Hc) as H1.
  eexists; eexists; exists (Store.withMessage chat u).
  split; [|split; [exact H1|split; [reflexivity|]]].
  - unfold handleSend_begin. rewrite Hc, Hq. reflexivity.
  - intros res data Hok Hj.
    destruct (handleSend_settle_delivers r chat (Fulfilled res)
                (setLoading true
                   (addMessageToSession (uniqueId chat) u (setQuestionInput "" r)))
                Hc) as (reply & Hrole & Hst & Hok' & _).
    specialize (Hok' res data eq_refl Hok Hj).
    exists (Store.withMessage (Store.withMessage chat u) reply).
    split.
    + rewrite Hst. unfold activeChat in *. simpl.
      match goal with
      | |- find _ (map ?f (map ?g _)) = _ =>
          change f with (Store.deliver (uniqueId chat) reply);
          change g with (Store.deliver (uniqueId chat) u)
      end.
      rewrite !find_deliver, Hc. simpl. unfold Store.deliver at 2.
      rewrite Hkey. unfold Store.deliver. simpl. rewrite Hkey. reflexivity.
    + simpl. rewrite <- app_assoc. simpl.
      destruct reply as [rr rc]. simpl in *. subst. reflexivity.
Qed.

Lemma send_appends_question_then_answer_witness :
  exists (body : query_body) (st1 : State) (chat1 : ChatSession),
    handleSend_begin Scenario.beforeSend = Some (body, st1) /\
    activeChat st1 = Some chat1 /\
    messages chat1 = [ {| role := user; content := "What is this about?" |} ] /\
    forall (res : Response query_json) (data : query_json),
      ok res = true -> json res = Fulfilled data ->
      exists chat2 : ChatSession,
        activeChat (handleSend_settle Scenario.beforeSend (Fulfilled res) st1)
        = Some chat2 /\
        messages chat2
        = [ {| role := user; content := "What is this about?" |};
            {| role := assistant; content := response data |} ].
Proof.
  apply (send_appends_question_then_answer Scenario.beforeSend
           {| id := "a"; uniqueId := "a"; title := "first video"; messages := [] |});
    reflexivity.
Defined.

(** C10.  The user message that [handleSend] appends, and the question it
    sends to the backend, hold the input exactly as typed, leading and
    trailing white space included: trimming is used in the guard only.  This
    holds for the session-store page and for the video-list page, where the
    message goes to the displayed messages at submission and to the stored
    history of the video together with the answer. *)
Theorem question_kept_untrimmed :
  (forall (r : State) (body : query_body) (st1 : State),
      handleSend_begin r = Some (body, st1) ->
      truthy (trim (questionInput r)) = true /\
      question body = questionInput r /\
      exists chat chat1 : ChatSession,
        activeChat r = Some chat /\ activeChat st1 = Some chat1 /\
        messages chat1
        = messages chat ++ [ {| role := user; content := questionInput r |} ])
  /\
  (forall (r : VideoChatHome.State) (body : VideoChatHome.query_body)
          (st1 : VideoChatHome.State),
      VideoChatHome.handleSend_begin r = Some (body, st1) ->
      truthy (trim (VideoChatHome.question r)) = true /\
      VideoChatHome.body_question body = VideoChatHome.question r /\
      VideoChatHome.currentMessages st1
      = VideoChatHome.currentMessages r
          ++ [ {| role := user; content := VideoChatHome.question r |} ] /\
      forall (res : Response query_json) (data : query_json)
             (st : VideoChatHome.State),
        ok res = true -> json res = Fulfilled data ->
        Forall2 (fun v v' =>
                   Some (VideoChatHome.videoId v) = VideoChatHome.activeVideoId r ->
                   VideoChatHome.messages v'
                   = VideoChatHome.messages v
                       ++ [ {| role := user; content := VideoChatHome.question r |};
                            {| role := assistant; content := response data |} ])
                (VideoChatHome.videos st)
                (VideoChatHome.videos
                   (VideoChatHome.handleSend_settle r (Fulfilled res) st))).
Proof.
  split.
  - intros r body st1 Hb.
    destruct (handleSend_begin_inv r body st1 Hb) as (chat & Hc & Hq & Hbody & Hst).
    split; [exact Hq|].
    split; [rewrite Hbody; reflexivity|].
    exists chat, (Store.withMessage chat {| role := user; content := questionInput r |}).
    subst st1. split; [exact Hc|]. split; [|reflexivity].
    apply activeChat_after_user_message. exact Hc.
  - intros r body st1 Hb. unfold VideoChatHome.handleSend_begin in Hb.
    destruct (VideoChatHome.activeVideoId r) as [active|] eqn:Ha; [|discriminate].
    destruct (truthy (trim (VideoChatHome.question r))) eqn:Hq; simpl in Hb;
      [|discriminate].
    destruct (truthy active); simpl in Hb; [|discriminate].
    inversion Hb; subst; clear Hb. simpl.
    split; [reflexivity|]. split; [reflexivity|]. split; [reflexivity|].
    intros res data st Hok Hj.
    unfold VideoChatHome.handleSend_settle. rewrite Ha.
    unfold VideoChatHome.handleSend_try, tryCatch, bind. rewrite Hok, Hj. simpl.
    induction (VideoChatHome.videos st) as [|v l IH]; simpl; constructor; [|exact IH].
    intros E. inversion E. rewrite String.eqb_refl. reflexivity.
Qed.

Lemma question_kept_untrimmed_witness :
  trim Scenario.paddedQuestion = "What is this about?" /\
  (exists (body : query_body) (st1 : State),
      handleSend_begin Scenario.beforeSendPadded = Some (body, st1) /\
      question body = "  What is this about? " /\
      exists chat1 : ChatSession,
        activeChat st1 = Some chat1 /\
        messages chat1 = [ {| role := user; content := "  What is this about? " |} ]) /\
  (exists (body : VideoChatHome.query_body) (st1 : VideoChatHome.State),
      VideoChatHome.handleSend_begin Scenario.videoListBeforeSend = Some (body, st1) /\
      VideoChatHome.body_question body = "  What is this about? " /\
      VideoChatHome.currentMessages st1
      = [ {| role := user; content := "  What is this about? " |} ]).
Proof.
  destruct question_kept_untrimmed as [Hnew Hold].
  split; [reflexivity|]. split.
  - eexists; eexists. split; [reflexivity|].
    match goal with
    | |- question ?b = _ /\ (exists c, activeChat ?s = _ /\ _) =>
        destruct (Hnew Scenario.beforeSendPadded b s eq_refl)
          as (_ & Hq & chat & chat1 & Hc & Hc1 & Hm)
    end.
    split; [exact Hq|].
    exists chat1. split; [exact Hc1|].
    rewrite Hm.
    assert (chat = {| id := "a"; uniqueId := "a"; title := "first video";
                      messages := [] |}) as -> by (vm_compute in Hc; congruence).
    reflexivity.
  - eexists; eexists. split; [reflexivity|].
    match goal with
    | |- VideoChatHome.body_question ?b = _ /\ VideoChatHome.currentMessages ?s = _ =>
        destruct (Hold Scenario.videoListBeforeSend b s eq_refl) as (_ & Hq & Hm & _)
    end.
    split; [exact Hq | exact Hm].
Defined.

(** ** Ingest failures *)

(** The session-store page.  When the request of an ingest submission fails
    (a transport error,
    or a response whose status is not a success), the handler leaves the
    session collection and the active pointer as they are, both at the click
    and when the request settles, so after the failure they are what they
    were before the submission; it keeps the typed url and title, calls
    [alert] once with a text that ends in the error text, and ends with the
    busy flag cleared. *)
Theorem ingest_failure_leaves_store :
  forall (r : State) (body : ingest_body) (st1 : State)
         (o : settled (Response ingest_json)) (errorText : string),
    handleIngest_begin r = Some (body, st1) ->
    Store.failsWith o errorText ->
    (sessions st1 = sessions r /\ activeSessionId st1 = activeSessionId r /\
     loading st1 = true) /\
    (forall st : State,
        sessions (handleIngest_settle r o st) = sessions st /\
        activeSessionId (handleIngest_settle r o st) = activeSessionId st /\
        urlInput (handleIngest_settle r o st) = urlInput st /\
        titleInput (handleIngest_settle r o st) = titleInput st /\
        alerted (handleIngest_settle r o st)
        = alerted st ++ [("Error: " ++ errorText)%string] /\
        loading (handleIngest_settle r o st) = false) /\
    sessions (handleIngest_settle r o st1) = sessions r /\
    activeSessionId (handleIngest_settle r o st1) = activeSessionId r.
Proof.
  intros r body st1 o errorText Hb Hf.
  assert (H1 : sessions st1 = sessions r /\ activeSessionId st1 = activeSessionId r /\
               loading st1 = true).
  { unfold handleIngest_begin in Hb.
    destruct (negb (truthy (urlInput r))); [discriminate|].
    inversion Hb; subst. repeat split. }
  assert (H2 : forall st : State,
             handleIngest_settle r o st
             = setLoading false (alert ("Error: " ++ errorText)%string st)).
  { intros st. open_try.
    inversion Hf as [m0 E1 E2 | res body0 Hok Htx E1 E2]; subst; simpl.
    - reflexivity.
    - rewrite Hok, Htx. reflexivity. }
  split; [exact H1|]. split.
  - intros st. rewrite H2. repeat split.
  - rewrite H2. simpl. destruct H1 as (Hs & Ha & _). split; assumption.
Qed.

Lemma ingest_failure_leaves_store_witness :
  sessions (handleIngest_settle Scenario.beforeIngest
              (Page.status500 "Video unavailable")
              (setStatusText "Downloading and processing..."
                 (setLoading true Scenario.beforeIngest)))
  = sessions Scenario.beforeIngest /\
  alerted (handleIngest_settle Scenario.beforeIngest
             (Page.status500 "Video unavailable")
             (setStatusText "Downloading and processing..."
                (setLoading true Scenario.beforeIngest)))
  = ["Error: Video unavailable"].
Proof.
  assert (Hf : Store.failsWith
                 (Page.status500 (J := ingest_json) "Video unavailable")
                 "Video unavailable")
    by (apply Store.http_error; reflexivity).
  destruct (ingest_failure_leaves_store Scenario.beforeIngest
              {| body_url := "https://youtu.be/b"; body_description := "Video 2" |}
              (setStatusText "Downloading and processing..."
                 (setLoading true Scenario.beforeIngest))
              (Page.status500 "Video unavailable") "Video unavailable"
              eq_refl Hf)
    as (_ & Hany & Hs & _).
  split; [exact Hs|].
  destruct (Hany (setStatusText "Downloading and processing..."
                    (setLoading true Scenario.beforeIngest)))
    as (_ & _ & _ & _ & Hal & _).
  exact Hal.
Defined.

(** ** Hydration *)

(** C7.  When the listing request answers with a success status and an
    array of records, the session collection becomes one session per record,
    in the order of the records: identifier and key are the url of the
    record, the title is its description, the history is empty.  What the
    collection held before plays no role. *)
Theorem hydration_maps_rows_in_order :
  forall (rows : list video_row) (res : Response listing) (st : State),
    ok res = true ->
    json res = Fulfilled (JsonArray rows) ->
    Forall2 (fun (v : video_row) (s : ChatSession) =>
               id s = url v /\ uniqueId s = url v /\
               title s = description v /\ messages s = [])
            rows
            (sessions (fetchVideosFromDB_settle (Fulfilled res) st)).
Proof.
  intros rows res st Hok Hj.
  open_try.
  rewrite Hok, Hj. simpl. clear Hj.
  induction rows as [|v rows IH]; simpl; constructor.
  - repeat split.
  - exact IH.
Qed.

Lemma hydration_maps_rows_in_order_witness :
  Forall2 (fun (v : video_row) (s : ChatSession) =>
             id s = url v /\ uniqueId s = url v /\
             title s = description v /\ messages s = [])
          Scenario.twoRows
          (sessions (fetchVideosFromDB_settle
                       (Page.ok200 (JsonArray Scenario.twoRows))
                       Scenario.whenAnswered)).
Proof.
  apply (hydration_maps_rows_in_order Scenario.twoRows
           {| ok := true; res_statusText := "OK"; text := Fulfilled "";
              json := Fulfilled (JsonArray Scenario.twoRows) |}
           Scenario.whenAnswered); reflexivity.
Defined.

(** ** Keys of the collection *)

Lemma distinct_NoDup (l : list string) : Store.distinct l = true -> NoDup l.
Proof.
  induction l as [|k l IH]; simpl; intros H.
  - constructor.
  - apply andb_true_iff in H. destruct H as [Hk Hl].
    constructor; [|apply IH; exact Hl].
    intros Hin.
    assert (existsb (String.eqb k) l = true) as E.
    { apply existsb_exists. exists k. split; [exact Hin | apply String.eqb_refl]. }
    rewrite E in Hk. discriminate.
Qed.

Lemma NoDup_keys_filter (p : ChatSession -> bool) (l : list ChatSession) :
  NoDup (map uniqueId l) -> NoDup (map uniqueId (filter p l)).
Proof.
  induction l as [|s l IH]; simpl; intros H.
  - constructor.
  - inversion H as [|k ks Hnotin Hnd]; subst.
    destruct (p s); simpl; [|apply IH; exact Hnd].
    constructor; [|apply IH; exact Hnd].
    intros Hin. apply Hnotin.
    apply in_map_iff in Hin. destruct Hin as (s' & Hk & Hs').
    apply filter_In in Hs'. destruct Hs' as [Hs' _].
    rewrite <- Hk. apply in_map. exact Hs'.
Qed.

(** A successful ingest: the new session in front of the collection of the
    render in which the handler was created. *)
Lemma handleIngest_settle_success (r : State) (res : Response ingest_json)
  (data : ingest_json) (st : State) :
  ok res = true -> json res = Fulfilled data ->
  sessions (handleIngest_settle r (Fulfilled res) st)
  = {| id := video_url data; uniqueId := video_url data;
       title := opt_or_else (video_description data)
                  (or_else (titleInput r) (placeholderTitle r));
       messages := [] |} :: sessions r /\
  activeSessionId (handleIngest_settle r (Fulfilled res) st) = Some (video_url data).
Proof.
  intros Hok Hj.
  open_try.
  rewrite Hok, Hj. simpl. split; reflexivity.
Qed.

Lemma keys_hydrate (rows : list video_row) (st : State) :
  Store.keys (Store.apply st (Store.hydrate rows)) = map url rows.
Proof.
  unfold Store.keys. simpl.
  open_try. simpl.
  rewrite map_map. reflexivity.
Qed.

Lemma keys_upsertNew (u t : string) (data : ingest_json) (st : State) :
  truthy u = true ->
  Store.keys (Store.apply st (Store.upsertNew u t data))
  = video_url data :: Store.keys st.
Proof.
  intros Hu. unfold Store.keys, Store.apply, handleIngest_begin. simpl.
  rewrite Hu. simpl. reflexivity.
Qed.

Lemma keys_upsertNew_no_url (u t : string) (data : ingest_json) (st : State) :
  truthy u = false ->
  Store.keys (Store.apply st (Store.upsertNew u t data)) = Store.keys st.
Proof.
  intros Hu. unfold Store.keys, Store.apply, handleIngest_begin. simpl.
  rewrite Hu. simpl. reflexivity.
Qed.

Lemma keys_remove (k : string) (st : State) :
  Store.keys (Store.apply st (Store.remove k))
  = map uniqueId (filter (fun s => negb (uniqueId s =? k)) (sessions st)).
Proof.
  unfold Store.keys. simpl. unfold handleDelete.
  destruct (activeSessionId st) as [a|]; [|reflexivity].
  destruct (a =? k); reflexivity.
Qed.

Lemma apply_keeps_keys_distinct (st : State) (o : Store.op) :
  NoDup (Store.keys st) -> Store.bringsNoRepeat st o = true ->
  NoDup (Store.keys (Store.apply st o)).
Proof.
  intros Hnd Hok. destruct o as [rows | u t data | k].
  - rewrite keys_hydrate. apply distinct_NoDup. exact Hok.
  - destruct (truthy u) eqn:Hu.
    + rewrite keys_upsertNew by exact Hu.
      constructor; [|exact Hnd].
      intros Hin. simpl in Hok.
      assert (existsb (String.eqb (video_url data)) (Store.keys st) = true) as E.
      { apply existsb_exists. exists (video_url data).
        split; [exact Hin | apply String.eqb_refl]. }
      rewrite E in Hok. discriminate.
    + rewrite keys_upsertNew_no_url by exact Hu. exact Hnd.
  - rewrite keys_remove. apply NoDup_keys_filter. exact Hnd.
Qed.

Lemma runOps_keeps_keys_distinct (ops : list Store.op) :
  forall st : State,
    NoDup (Store.keys st) -> Store.noRepeatAlong ops st = true ->
    NoDup (Store.keys (Store.runOps ops st)).
Proof.
  induction ops as [|o ops IH]; intros st Hnd Hok; simpl in *.
  - exact Hnd.
  - apply andb_true_iff in Hok. destruct Hok as [Ho Hrest].
    apply IH; [|exact Hrest].
    apply apply_keeps_keys_distinct; assumption.
Qed.

(** Operations that run one after the other, each to completion.  The page
    checks no key: a successful ingest
    always puts its session in front, whether or not the key is already in
    the collection, and a listing is taken as it comes.  The keys of the
    collection are pairwise distinct after every sequence of hydrate,
    upsertNew and remove operations from the empty store in which each
    listing has pairwise distinct urls and each ingest returns a key that is
    not in the collection at that moment. *)
Theorem keys_distinct_without_repeats :
  forall ops : list Store.op,
    Store.noRepeatAlong ops initial = true ->
    NoDup (Store.keys (Store.runOps ops initial)) /\
    (forall (st : State) (u t : string) (data : ingest_json),
        truthy u = true ->
        Store.keys (Store.apply st (Store.upsertNew u t data))
        = video_url data :: Store.keys st).
Proof.
  intros ops Hok. split.
  - apply runOps_keeps_keys_distinct; [constructor | exact Hok].
  - intros st u t data Hu. apply keys_upsertNew. exact Hu.
Qed.

Lemma keys_distinct_without_repeats_witness :
  NoDup (Store.keys
           (Store.runOps
              [ Store.hydrate Scenario.twoRows;
                Store.upsertNew "https://youtu.be/b" "" Scenario.ingestedB;
                Store.remove "u1" ] initial)).
Proof.
  apply (keys_distinct_without_repeats
           [ Store.hydrate Scenario.twoRows;
             Store.upsertNew "https://youtu.be/b" "" Scenario.ingestedB;
             Store.remove "u1" ]).
  reflexivity.
Defined.

(** C3 fails as stated: ingesting the same video twice gives two sessions
    with the same key; the second insertion is not refused.  The events are
    all offered by the page. *)
Lemma reingest_repeats_key :
  Store.keys
    (Store.runOps
       [ Store.upsertNew "https://youtu.be/b" "" Scenario.ingestedB;
         Store.upsertNew "https://youtu.be/b" "" Scenario.ingestedB ] initial)
  = ["b"; "b"] /\
  ~ NoDup (Store.keys
             (Store.runOps
                [ Store.upsertNew "https://youtu.be/b" "" Scenario.ingestedB;
                  Store.upsertNew "https://youtu.be/b" "" Scenario.ingestedB ]
                initial)) /\
  Page.offered Scenario.ingestTwice Page.mounted = true /\
  Store.keys (Page.page (Page.run Scenario.ingestTwice Page.mounted)) = ["b"; "b"].
Proof.
  split; [reflexivity|]. split; [|split; reflexivity].
  intros H. vm_compute in H.
  inversion H as [|k l Hnotin _]; subst.
  apply Hnotin. left. reflexivity.
Qed.

(** ** Hydration failures *)




(** ** Insertion of the new session *)

(** The collection after a successful ingest that nothing interleaved with:
    the new session first, then the sessions that were there, in their
    order.  The key of the new session is not looked at. *)
Lemma ingest_inserts_at_front (r : State) (body : ingest_body) (st1 : State)
  (res : Response ingest_json) (data : ingest_json) :
  handleIngest_begin r = Some (body, st1) ->
  ok res = true -> json res = Fulfilled data ->
  exists newSession : ChatSession,
    uniqueId newSession = video_url data /\ messages newSession = [] /\
    sessions (handleIngest_settle r (Fulfilled res) st1) = newSession :: sessions r.
Proof.
  intros _ Hok Hj.
  destruct (handleIngest_settle_success r res data st1 Hok Hj) as [Hs _].
  eexists. split; [|split; [|exact Hs]]; reflexivity.
Qed.

(** C8 at the inputs where the code departs from it.  The new session is
    put in front of the collection of the render in which [handleIngest]
    was started, not of the collection at the time of the insertion:
    - session a is deleted while the ingest of b is in flight: the
      collection is empty just before the insertion and is b, a after it;
    - the listing brings session a while the ingest of b is in flight: the
      collection is a just before the insertion and only b after it.
    Every event of the two runs is offered by the page. *)
Theorem ingest_inserts_into_render_snapshot :
  Page.offered Scenario.deleteDuringIngest Page.mounted = true /\
  Store.keys (Page.page (Page.run (firstn 4 Scenario.deleteDuringIngest) Page.mounted))
  = [] /\
  Store.keys (Page.page (Page.run Scenario.deleteDuringIngest Page.mounted))
  = ["b"; "a"] /\
  Page.offered Scenario.listingDuringIngest Page.mounted = true /\
  Store.keys (Page.page (Page.run (firstn 3 Scenario.listingDuringIngest) Page.mounted))
  = ["a"] /\
  Store.keys (Page.page (Page.run Scenario.listingDuringIngest Page.mounted))
  = ["b"].
Proof. repeat split. Qed.

(** ** The scenario of section 8 *)

(** Session a is active and a question is sent; a is deleted and b made
    active before the answer arrives: afterwards b is the only session, its
    history is empty, and nothing is in flight. *)
Example deleted_before_answer :
  Page.offered Scenario.deletedBeforeAnswer Page.mounted = true /\
  sessions (Page.page (Page.run Scenario.deletedBeforeAnswer Page.mounted))
  = [ {| id := "b"; uniqueId := "b"; title := "second video"; messages := [] |} ] /\
  activeSessionId (Page.page (Page.run Scenario.deletedBeforeAnswer Page.mounted))
  = Some "b" /\
  Page.inflight (Page.run Scenario.deletedBeforeAnswer Page.mounted) = [].
Proof. repeat split. Qed.

(** ** The video-list page *)

(** [handleProcess] puts the new video after the ones that are there, with
    a functional update. *)
Lemma videoList_ingest_appends_at_end (r : VideoChatHome.State)
  (res : Response VideoChatHome.ingest_json) (data : VideoChatHome.ingest_json)
  (st : VideoChatHome.State) :
  ok res = true -> json res = Fulfilled data ->
  VideoChatHome.videos (VideoChatHome.handleProcess_settle r (Fulfilled res) st)
  = VideoChatHome.videos st
      ++ [ {| VideoChatHome.videoId := VideoChatHome.video_id data;
              VideoChatHome.title :=
                or_else (lastSegment "" (VideoChatHome.url r)) "Video";
              VideoChatHome.messages := [] |} ].
Proof.
  intros Hok Hj.
  open_try.
  rewrite Hok, Hj. reflexivity.
Qed.

(** A failed ingest is reported in the status line; the list of videos and
    the active video stay as they are. *)
Lemma videoList_ingest_failure (r : VideoChatHome.State)
  (o : settled (Response VideoChatHome.ingest_json)) (errorText : string)
  (st : VideoChatHome.State) :
  Store.failsWith o errorText ->
  VideoChatHome.handleProcess_settle r o st
  = VideoChatHome.setLoading false
      (VideoChatHome.setStatus ("Error: " ++ errorText)%string st).
Proof.
  intros Hf.
  open_try.
  inversion Hf as [m0 E1 E2 | res body0 Hok Htx E1 E2]; subst; simpl.
  - reflexivity.
  - rewrite Hok, Htx. reflexivity.
Qed.

(** The stored histories are changed by a successful answer only, and only
    for the video that was active when the question was sent; every answer
    or error text also goes to the displayed messages, whatever video they
    show by then. *)
Lemma videoList_send_settles (r : VideoChatHome.State)
  (body : VideoChatHome.query_body) (st1 : VideoChatHome.State)
  (o : settled (Response query_json)) (st : VideoChatHome.State) :
  VideoChatHome.handleSend_begin r = Some (body, st1) ->
  Forall2 (fun v v' =>
             Some (VideoChatHome.videoId v) <> VideoChatHome.activeVideoId r ->
             v' = v)
          (VideoChatHome.videos st)
          (VideoChatHome.videos (VideoChatHome.handleSend_settle r o st)) /\
  (forall t, Store.failsWith o t ->
     VideoChatHome.videos (VideoChatHome.handleSend_settle r o st)
     = VideoChatHome.videos st) /\
  exists reply : Message,
    role reply = assistant /\
    VideoChatHome.currentMessages (VideoChatHome.handleSend_settle r o st)
    = VideoChatHome.currentMessages st ++ [reply].
Proof.
  intros Hb. unfold VideoChatHome.handleSend_begin in Hb.
  destruct (VideoChatHome.activeVideoId r) as [active|] eqn:Ha; [|discriminate].
  clear Hb.
  unfold VideoChatHome.handleSend_settle. rewrite Ha.
  unfold VideoChatHome.handleSend_try, tryCatch, bind.
  assert (Hsame : forall l : list VideoChatHome.VideoChat,
             Forall2 (fun v v' => Some (VideoChatHome.videoId v) <> Some active -> v' = v)
                     l l).
  { induction l; constructor; auto. }
  destruct o as [res|err]; simpl.
  - destruct (ok res) eqn:Hok; simpl.
    + destruct (json res) as [data|err] eqn:Hj; simpl.
      * split; [|split].
        -- induction (VideoChatHome.videos st) as [|v l IH]; simpl; constructor;
             [|exact IH].
           intros N. destruct (String.eqb_spec (VideoChatHome.videoId v) active);
             [congruence | reflexivity].
        -- intros t F. inversion F; subst. congruence.
        -- eexists. split; [|reflexivity]. reflexivity.
      * split; [apply Hsame|]. split; [reflexivity|].
        eexists. split; [|reflexivity]. reflexivity.
    + destruct (text res); simpl; (split; [apply Hsame|]); (split; [reflexivity|]);
        eexists; (split; [|reflexivity]); reflexivity.
  - split; [apply Hsame|]. split; [reflexivity|].
    eexists. split; [|reflexivity]. reflexivity.
Qed.

(** * Further properties of the pages *)

(** ** Shape of the settlements *)

Lemma remove_nth_split {A : Type} (l : list A) :
  forall (n : nat) (q : A),
    nth_error l n = Some q ->
    exists l1 l2 : list A,
      l = l1 ++ q :: l2 /\ firstn n l ++ skipn (S n) l = l1 ++ l2.
Proof.
  induction l as [|a l IH]; intros [|n] q H; simpl in H; try discriminate.
  - inversion H; subst. exists [], l. split; reflexivity.
  - destruct (IH n q H) as (l1 & l2 & E1 & E2).
    exists (a :: l1), l2. split.
    + simpl. f_equal. exact E1.
    + change (a :: (firstn n l ++ skipn (S n) l) = a :: (l1 ++ l2)).
      f_equal. exact E2.
Qed.

(** A listing settlement sets the collection to the mapped rows or to
    nothing, or leaves it; it touches neither the busy flag nor the
    pointer. *)
Lemma fetchVideosFromDB_settle_shape (o : settled (Response listing)) (st : State) :
  loading (fetchVideosFromDB_settle o st) = loading st /\
  activeSessionId (fetchVideosFromDB_settle o st) = activeSessionId st /\
  (sessions (fetchVideosFromDB_settle o st) = sessions st \/
   exists rows : list video_row,
     sessions (fetchVideosFromDB_settle o st) = map sessionOfRow rows).
Proof.
  open_try. destruct o as [res|err]; simpl.
  - destruct (ok res); simpl.
    + destruct (json res) as [[rows|j]|err]; simpl; repeat split;
        right; first [exists rows; reflexivity | exists []; reflexivity].
    + repeat split. left. reflexivity.
  - repeat split. right. exists []. reflexivity.
Qed.

(** An ingest settlement clears the busy flag; it either leaves collection
    and pointer, or puts a fresh session in front of the collection of its
    render and points to it. *)
Lemma handleIngest_settle_shape (r : State) (o : settled (Response ingest_json))
  (st : State) :
  loading (handleIngest_settle r o st) = false /\
  ((sessions (handleIngest_settle r o st) = sessions st /\
    activeSessionId (handleIngest_settle r o st) = activeSessionId st) \/
   exists fresh : ChatSession,
     id fresh = uniqueId fresh /\ messages fresh = [] /\
     sessions (handleIngest_settle r o st) = fresh :: sessions r /\
     activeSessionId (handleIngest_settle r o st) = Some (uniqueId fresh)).
Proof.
  open_try. destruct o as [res|err]; simpl.
  - destruct (ok res); simpl.
    + destruct (json res) as [data|err]; simpl; (split; [reflexivity|]).
      * right.
        exists {| id := video_url data; uniqueId := video_url data;
                  title := opt_or_else (video_description data)
                             (or_else (titleInput r) (placeholderTitle r));
                  messages := [] |}.
        split; [|split; [|split]]; reflexivity.
      * left. split; reflexivity.
    + destruct (text res); simpl; (split; [reflexivity|]); left; split; reflexivity.
  - split; [reflexivity|]. left. split; reflexivity.
Qed.

Lemma handleDelete_shape (k : string) (st : State) :
  sessions (handleDelete k st)
  = filter (fun s => negb (uniqueId s =? k)) (sessions st) /\
  loading (handleDelete k st) = loading st.
Proof.
  unfold handleDelete. destruct (activeSessionId st) as [a|].
  - destruct (a =? k); split; reflexivity.
  - split; reflexivity.
Qed.

Lemma idIsKey_deliver (k : string) (m : Message) (l : list ChatSession) :
  Forall Reach.idIsKey l -> Forall Reach.idIsKey (map (Store.deliver k m) l).
Proof.
  intros H. induction H as [|s l Hs _ IH]; simpl; constructor; [|exact IH].
  unfold Store.deliver. destruct (uniqueId s =? k); exact Hs.
Qed.

Lemma idIsKey_rows (rows : list video_row) :
  Forall Reach.idIsKey (map sessionOfRow rows).
Proof. induction rows; simpl; constructor; [reflexivity | assumption]. Qed.

Lemma idIsKey_filter (p : ChatSession -> bool) (l : list ChatSession) :
  Forall Reach.idIsKey l -> Forall Reach.idIsKey (filter p l).
Proof.
  intros H. induction H as [|s l Hs _ IH]; simpl; [constructor|].
  destruct (p s); [constructor; assumption | assumption].
Qed.

Lemma busy_remove (l1 l2 : list Page.request) (q : Page.request) :
  length (filter Reach.foreground (l1 ++ q :: l2))
  = length (filter Reach.foreground (l1 ++ l2))
    + (if Reach.foreground q then 1 else 0).
Proof.
  rewrite !filter_app, !length_app. simpl.
  destruct (Reach.foreground q); simpl; lia.
Qed.

Lemma Forall_remove {A : Type} (P : A -> Prop) (l1 l2 : list A) (q : A) :
  Forall P (l1 ++ q :: l2) -> P q /\ Forall P (l1 ++ l2).
Proof.
  intros H. apply Forall_app in H. destruct H as [H1 H2].
  inversion H2; subst. split; [assumption|].
  apply Forall_app. split; assumption.
Qed.

(** ** Runs of the page *)

Lemma run_invariant (I : Page.system -> Prop) :
  (forall s e, I s -> I (Page.step s e)) ->
  forall (es : list Page.event) (s : Page.system), I s -> I (Page.run es s).
Proof.
  intros Hstep es. induction es as [|e es IH]; intros s Hs; simpl.
  - exact Hs.
  - apply IH. apply Hstep. exact Hs.
Qed.

Lemma step_consistent (s : Page.system) (e : Page.event) :
  Reach.consistent s -> Reach.consistent (Page.step s e).
Proof.
  intros (Hbusy & Hkeys & Hreq). unfold Page.step.
  destruct (Page.enabled s e) eqn:En; [|repeat split; assumption].
  destruct s as [st fl]. unfold Reach.consistent, Reach.busy in *. 
  unfold Page.enabled in En. simpl in Hbusy, Hkeys, Hreq, En.
  destruct e as [ |k|k|v|v| |v| |n o]; unfold Page.fire;
    cbn [Page.page Page.inflight Page.withPage].
  - repeat split; assumption.
  - repeat split; assumption.
  - destruct (handleDelete_shape k st) as [Hs Hl]. rewrite Hs, Hl.
    repeat split; try assumption. apply idIsKey_filter. exact Hkeys.
  - repeat split; assumption.
  - repeat split; assumption.
  - apply andb_true_iff in En. destruct En as [_ En].
    apply negb_true_iff, orb_false_iff in En. destruct En as [Hl Hu].
    apply negb_false_iff in Hu.
    unfold handleIngest_begin. rewrite Hu. simpl.
    rewrite Hl in Hbusy. rewrite filter_app, length_app, Hbusy. simpl.
    repeat split; try assumption.
    apply Forall_app. split; [assumption|]. constructor; [exact Hkeys|constructor].
  - repeat split; assumption.
  - apply andb_true_iff in En. destruct En as [_ Hl]. apply negb_true_iff in Hl.
    destruct (handleSend_begin st) as [[body st1]|] eqn:Hb;
      [|repeat split; assumption].
    destruct (handleSend_begin_inv st body st1 Hb) as (chat & Hc & _ & Hbody & Hst1).
    subst st1. simpl.
    rewrite Hl in Hbusy. rewrite filter_app, length_app, Hbusy. simpl.
    repeat split.
    + change (map _ (sessions st))
        with (map (Store.deliver (uniqueId chat)
                     {| role := user; content := questionInput st |}) (sessions st)).
      apply idIsKey_deliver. exact Hkeys.
    + apply Forall_app. split; [assumption|]. constructor; [|constructor].
      simpl. split; [exact Hkeys|]. exists chat. split; assumption.
  - destruct (nth_error fl n) as [q|] eqn:Hn; [|discriminate].
    destruct (remove_nth_split fl n q Hn) as (l1 & l2 & E1 & E2).
    cbn [Page.page Page.inflight].
    rewrite E2. rewrite E1 in Hbusy, Hreq. rewrite busy_remove in Hbusy.
    apply Forall_remove in Hreq. destruct Hreq as [Hq Hrest].
    assert (Hzero : length (filter Reach.foreground (l1 ++ l2)) = 0 /\
                    (Reach.foreground q = true -> loading st = true)
                  \/ Reach.foreground q = false).
    { destruct (Reach.foreground q); [left|right; reflexivity].
      destruct (loading st); [split; [lia|reflexivity] | lia]. }
    destruct q as [|r body|r body]; destruct o as [o|o|o]; try discriminate;
      cbn [Page.settle Reach.wellCaptured Reach.foreground] in *.
    + destruct (fetchVideosFromDB_settle_shape o st) as (Hl & _ & [Hs|[rows Hs]]);
        rewrite Hl, Hs; rewrite Nat.add_0_r in Hbusy;
        repeat split; try assumption. apply idIsKey_rows.
    + destruct Hzero as [[Hz _]|Hz]; [|discriminate].
      destruct (handleIngest_settle_shape r o st)
        as (Hl & [[Hs _]|(fresh & Hid & _ & Hs & _)]); rewrite Hl, Hs;
        repeat split; try assumption.
      constructor; assumption.
    + destruct Hzero as [[Hz _]|Hz]; [|discriminate].
      destruct Hq as (Hr & chat & Hc & _).
      destruct (handleSend_settle_delivers r chat o st Hc) as (reply & _ & Hst & _).
      rewrite Hst.
      replace (sessions (setLoading false
                           (addMessageToSession (uniqueId chat) reply st)))
        with (map (Store.deliver (uniqueId chat) reply) (sessions st))
        by reflexivity.
      cbn [loading setLoading].
      repeat split; try assumption.
      apply idIsKey_deliver. exact Hkeys.
Qed.

Lemma mounted_consistent : Reach.consistent Page.mounted.
Proof.
  repeat split; simpl; constructor; [exact I | constructor].
Qed.

(** The busy flag is accurate in every state the page can reach: at most
    one ingest or query request is pending, the flag is set exactly while
    there is one, and it is clear exactly when there is none. *)
Theorem busy_flag_counts_pending :
  forall es : list Page.event,
    Reach.busy (Page.run es Page.mounted) <= 1 /\
    (loading (Page.page (Page.run es Page.mounted)) = true <->
     Reach.busy (Page.run es Page.mounted) = 1) /\
    (loading (Page.page (Page.run es Page.mounted)) = false <->
     Reach.busy (Page.run es Page.mounted) = 0).
Proof.
  intros es.
  destruct (run_invariant Reach.consistent step_consistent es Page.mounted
              mounted_consistent) as (Hbusy & _ & _).
  rewrite Hbusy.
  destruct (loading (Page.page (Page.run es Page.mounted)));
    repeat split; intros; try lia; try reflexivity; try discriminate.
Qed.

(** In every state the page can reach, every session has its key as
    backend identifier, and every pending query carries the question as it
    was typed, the key of the session that was active when it was sent, and
    the result count 8. *)
Theorem query_carries_captured_key :
  forall es : list Page.event,
    (forall c : ChatSession,
        In c (sessions (Page.page (Page.run es Page.mounted))) ->
        id c = uniqueId c) /\
    (forall (n : nat) (r : State) (body : query_body),
        nth_error (Page.inflight (Page.run es Page.mounted)) n
        = Some (Page.Query r body) ->
        question body = questionInput r /\
        activeSessionId r = Some (body_video_url body) /\
        top_k body = 8).
Proof.
  intros es.
  destruct (run_invariant Reach.consistent step_consistent es Page.mounted
              mounted_consistent) as (_ & Hkeys & Hreq).
  split.
  - intros c Hc. rewrite Forall_forall in Hkeys. apply Hkeys. exact Hc.
  - intros n r body Hn. apply nth_error_In in Hn.
    rewrite Forall_forall in Hreq. specialize (Hreq _ Hn).
    destruct Hreq as (Hr & chat & Hc & Hbody). subst body. simpl.
    destruct (find_active_key _ _ _ Hc) as [Ha Hin].
    rewrite Forall_forall in Hr. rewrite (Hr chat Hin).
    repeat split. exact Ha.
Qed.

Lemma query_carries_captured_key_witness :
  exists (r : State) (body : query_body),
    nth_error (Page.inflight
                 (Page.run (firstn 4 Scenario.deletedBeforeAnswer) Page.mounted)) 0
    = Some (Page.Query r body) /\
    question body = questionInput r /\
    activeSessionId r = Some (body_video_url body) /\
    top_k body = 8.
Proof.
  eexists; eexists. split; [reflexivity|].
  destruct (query_carries_captured_key (firstn 4 Scenario.deletedBeforeAnswer))
    as [_ H].
  apply (H 0). reflexivity.
Defined.

(** ** The active pointer *)

Lemma listed_deliver (k k' : string) (m : Message) (l : list ChatSession) :
  existsb (fun s => uniqueId s =? k) (map (Store.deliver k' m) l)
  = existsb (fun s => uniqueId s =? k) l.
Proof.
  induction l as [|s l IH]; simpl; [reflexivity|].
  rewrite deliver_keeps_key, IH. reflexivity.
Qed.

Lemma listed_filter_other (a k : string) (l : list ChatSession) :
  (a =? k) = false ->
  existsb (fun s => uniqueId s =? a)
          (filter (fun s => negb (uniqueId s =? k)) l)
  = existsb (fun s => uniqueId s =? a) l.
Proof.
  intros Hak. induction l as [|s l IH]; simpl; [reflexivity|].
  destruct (String.eqb_spec (uniqueId s) k) as [E|N]; simpl.
  - rewrite IH. rewrite E, String.eqb_sym, Hak. reflexivity.
  - rewrite IH. reflexivity.
Qed.

Lemma pointerValid_ext (st st' : State) :
  sessions st' = sessions st -> activeSessionId st' = activeSessionId st ->
  Reach.pointerValid st' = Reach.pointerValid st.
Proof.
  intros Hs Ha. unfold Reach.pointerValid, Page.listed. rewrite Hs, Ha. reflexivity.
Qed.

Lemma pointerValid_deliver (k : string) (m : Message) (st : State) :
  Reach.pointerValid (addMessageToSession k m st) = Reach.pointerValid st.
Proof.
  unfold Reach.pointerValid, Page.listed. simpl.
  destruct (activeSessionId st) as [a|]; [|reflexivity].
  apply listed_deliver.
Qed.

Lemma pointerValid_handleDelete (k : string) (st : State) :
  Reach.pointerValid st = true -> Reach.pointerValid (handleDelete k st) = true.
Proof.
  unfold Reach.pointerValid, Page.listed, handleDelete.
  destruct (activeSessionId st) as [a|] eqn:Ha; simpl.
  - destruct (a =? k) eqn:Hak; simpl; [reflexivity|].
    rewrite Ha. intros H. rewrite listed_filter_other; assumption.
  - rewrite Ha. reflexivity.
Qed.

Lemma find_none_existsb {A : Type} (p : A -> bool) (l : list A) :
  existsb p l = false -> find p l = None.
Proof.
  induction l as [|a l IH]; simpl; [reflexivity|].
  destruct (p a); simpl; [discriminate | exact IH].
Qed.

Lemma listingPending_remove (l1 l2 : list Page.request) (q : Page.request) :
  existsb (fun q0 => negb (Reach.foreground q0)) (l1 ++ q :: l2) = false ->
  Reach.foreground q = true /\
  existsb (fun q0 => negb (Reach.foreground q0)) (l1 ++ l2) = false.
Proof.
  rewrite !existsb_app. simpl. intros H.
  apply orb_false_iff in H. destruct H as [H1 H2].
  apply orb_false_iff in H2. destruct H2 as [Hq H2].
  apply negb_false_iff in Hq. rewrite H1, H2. split; [exact Hq | reflexivity].
Qed.

Lemma step_keeps_pointer (s : Page.system) (e : Page.event) :
  Reach.pointerValid (Page.page s) = true /\ Reach.listingPending s = false ->
  Reach.pointerValid (Page.page (Page.step s e)) = true /\
  Reach.listingPending (Page.step s e) = false.
Proof.
  intros [Hp Hl]. unfold Page.step.
  destruct (Page.enabled s e) eqn:En; [|split; assumption].
  destruct s as [st fl]. unfold Reach.listingPending in *.
  unfold Page.enabled in En. cbn [Page.page Page.inflight] in *.
  destruct e as [ |k|k|v|v| |v| |n o]; unfold Page.fire;
    cbn [Page.page Page.inflight Page.withPage].
  - split; [reflexivity | assumption].
  - split; [|assumption]. unfold Reach.pointerValid. simpl. exact En.
  - split; [|assumption]. apply pointerValid_handleDelete. exact Hp.
  - split; assumption.
  - split; assumption.
  - destruct (handleIngest_begin st) as [[body st1]|] eqn:Hb;
      cbn [Page.page Page.inflight]; [|split; assumption].
    unfold handleIngest_begin in Hb.
    destruct (negb (truthy (urlInput st))); [discriminate|].
    inversion Hb; subst. split; [exact Hp|].
    rewrite existsb_app, Hl. reflexivity.
  - split; assumption.
  - destruct (handleSend_begin st) as [[body st1]|] eqn:Hb;
      cbn [Page.page Page.inflight]; [|split; assumption].
    destruct (handleSend_begin_inv st body st1 Hb) as (chat & _ & _ & _ & Hst1).
    subst st1. split; [|rewrite existsb_app, Hl; reflexivity].
    rewrite (pointerValid_ext
               (addMessageToSession (uniqueId chat)
                  {| role := user; content := questionInput st |} st))
      by reflexivity.
    rewrite pointerValid_deliver. exact Hp.
  - destruct (nth_error fl n) as [q|] eqn:Hn; [|discriminate].
    destruct (remove_nth_split fl n q Hn) as (l1 & l2 & E1 & E2).
    cbn [Page.page Page.inflight]. rewrite E2. rewrite E1 in Hl.
    destruct (listingPending_remove l1 l2 q Hl) as [Hq Hrest].
    split; [|exact Hrest].
    destruct q as [|r body|r body]; destruct o as [o|o|o]; try discriminate;
      cbn [Page.settle].
    + destruct (handleIngest_settle_shape r o st)
        as (_ & [[Hs Ha]|(fresh & _ & _ & Hs & Ha)]).
      * rewrite (pointerValid_ext st) by assumption. exact Hp.
      * unfold Reach.pointerValid, Page.listed. rewrite Ha, Hs. simpl.
        rewrite String.eqb_refl. reflexivity.
    + unfold handleSend_settle.
      destruct (activeChat r) as [chat|] eqn:Hc; [|exact Hp].
      destruct (handleSend_settle_delivers r chat o st Hc) as (reply & _ & Hst & _).
      unfold handleSend_settle in Hst. rewrite Hc in Hst. rewrite Hst.
      rewrite (pointerValid_ext (addMessageToSession (uniqueId chat) reply st))
        by reflexivity.
      rewrite pointerValid_deliver. exact Hp.
Qed.

(** Once the listing has settled, the active pointer never dangles: from a
    state with no listing pending in which the pointer is absent or is the
    key of a session, every run of the page ends in such a state. *)
Theorem pointer_valid_once_listing_settled :
  forall (s : Page.system) (es : list Page.event),
    Reach.pointerValid (Page.page s) = true ->
    Reach.listingPending s = false ->
    Reach.pointerValid (Page.page (Page.run es s)) = true.
Proof.
  intros s es Hp Hl.
  apply (run_invariant
           (fun s0 => Reach.pointerValid (Page.page s0) = true /\
                      Reach.listingPending s0 = false)
           step_keeps_pointer es s).
  split; assumption.
Qed.

Lemma pointer_valid_once_listing_settled_witness :
  Reach.pointerValid
    (Page.page
       (Page.run (skipn 1 Scenario.deletedBeforeAnswer)
          (Page.run (firstn 1 Scenario.deletedBeforeAnswer) Page.mounted)))
  = true.
Proof.
  apply (pointer_valid_once_listing_settled
           (Page.run (firstn 1 Scenario.deletedBeforeAnswer) Page.mounted)
           (skipn 1 Scenario.deletedBeforeAnswer)); reflexivity.
Defined.

(** When the active pointer is a non-empty key that no session of the
    collection has, the page shows neither the setup card nor the chat
    view: no url, title or question can be typed and nothing can be
    submitted until a session is selected or "New Video Chat" is clicked.
    The page reaches such a state when the listing settles after an
    ingest. *)
Theorem dangling_pointer_shows_nothing :
  forall (s : Page.system) (k : string),
    activeSessionId (Page.page s) = Some k ->
    truthy k = true ->
    Page.listed k (Page.page s) = false ->
    Page.showsSetup (Page.page s) = false /\
    Page.showsChat (Page.page s) = false /\
    Page.enabled s Page.StartChat = false /\
    Page.enabled s Page.Send = false /\
    (forall v : string,
        Page.enabled s (Page.TypeUrl v) = false /\
        Page.enabled s (Page.TypeTitle v) = false /\
        Page.enabled s (Page.TypeQuestion v) = false) /\
    Page.enabled s Page.NewVideoChat = true.
Proof.
  intros s k Ha Hk Hl.
  assert (Hsetup : Page.showsSetup (Page.page s) = false).
  { unfold Page.showsSetup, Page.truthyId. rewrite Ha, Hk. reflexivity. }
  assert (Hchat : Page.showsChat (Page.page s) = false).
  { unfold Page.showsChat, activeChat. rewrite Ha.
    rewrite (find_none_existsb (isActive (Some k)) _ Hl). apply andb_false_r. }
  unfold Page.enabled. rewrite Hsetup, Hchat. repeat split.
Qed.

Lemma dangling_pointer_shows_nothing_witness :
  Page.offered Reach.listingAfterIngest Page.mounted = true /\
  Page.showsSetup (Page.page (Page.run Reach.listingAfterIngest Page.mounted)) = false /\
  Page.showsChat (Page.page (Page.run Reach.listingAfterIngest Page.mounted)) = false.
Proof.
  split; [reflexivity|].
  destruct (dangling_pointer_shows_nothing
              (Page.run Reach.listingAfterIngest Page.mounted) "b"
              eq_refl eq_refl eq_refl) as (H1 & H2 & _).
  split; assumption.
Defined.

(** ** The guard of handleSend *)

Lemma trimStart_cases (s : string) :
  (Reach.allWhiteSpace s = true /\ trimStart s = "") \/
  (Reach.allWhiteSpace s = false /\
   exists (c : ascii) (t : string),
     trimStart s = String c t /\ isWhiteSpace c = false).
Proof.
  induction s as [|c s IH]; simpl.
  - left. split; reflexivity.
  - destruct (isWhiteSpace c) eqn:Hc; simpl.
    + exact IH.
    + right. split; [reflexivity|]. exists c, s. split; [reflexivity | exact Hc].
Qed.

Lemma trimEnd_keeps_first (c : ascii) (t : string) :
  isWhiteSpace c = false -> truthy (trimEnd (String c t)) = true.
Proof.
  intros Hc. simpl. destruct (trimEnd t); [rewrite Hc|]; reflexivity.
Qed.

Lemma truthy_trim (s : string) :
  truthy (trim s) = negb (Reach.allWhiteSpace s).
Proof.
  unfold trim.
  destruct (trimStart_cases s) as [[Hw Ht]|(Hw & c & t & Ht & Hc)];
    rewrite Hw, Ht; simpl.
  - reflexivity.
  - apply (trimEnd_keeps_first c t Hc).
Qed.

Lemma find_existsb_none {A : Type} (p : A -> bool) (l : list A) :
  find p l = None <-> existsb p l = false.
Proof.
  split; [|apply find_none_existsb].
  induction l as [|a l IH]; simpl; [reflexivity|].
  destruct (p a); simpl; [discriminate | exact IH].
Qed.

(** [handleSend] returns without sending, and without touching the page,
    exactly when the question consists of white space only (or is empty),
    or the active pointer is absent, or no session of the collection has
    the active key; pressing Send in such a state changes nothing. *)
Theorem handleSend_guard :
  forall r : State,
    (handleSend_begin r = None <->
     Reach.allWhiteSpace (questionInput r) = true \/
     activeSessionId r = None \/
     exists k : string, activeSessionId r = Some k /\ Page.listed k r = false) /\
    (forall s : Page.system,
        Page.page s = r -> handleSend_begin r = None ->
        Page.step s Page.Send = s).
Proof.
  intros r. split.
  - unfold handleSend_begin, activeChat, Page.listed.
    rewrite truthy_trim, negb_involutive.
    destruct (activeSessionId r) as [k|] eqn:Ha.
    + destruct (find (isActive (Some k)) (sessions r)) as [chat|] eqn:Hf.
      * assert (Hex : existsb (isActive (Some k)) (sessions r) = true).
        { destruct (existsb (isActive (Some k)) (sessions r)) eqn:E; [reflexivity|].
          apply find_existsb_none in E. congruence. }
        destruct (Reach.allWhiteSpace (questionInput r)); simpl; split.
        -- intros _. left. reflexivity.
        -- reflexivity.
        -- discriminate.
        -- intros [H|[H|(k' & Hk' & H)]]; try discriminate.
           inversion Hk'; subst k'.
           change (existsb (isActive (Some k)) (sessions r) = false) in H.
           congruence.
      * split; [|reflexivity]. intros _. right. right. exists k.
        split; [reflexivity|]. apply (find_existsb_none (isActive (Some k))). exact Hf.
    + assert (Hf : find (isActive None) (sessions r) = None)
        by (induction (sessions r); simpl; auto).
      rewrite Hf. split; [|reflexivity]. intros _. right. left. reflexivity.
  - intros s Hs Hb. unfold Page.step.
    destruct (Page.enabled s Page.Send); [|reflexivity].
    simpl. rewrite Hs, Hb. reflexivity.
Qed.

Lemma handleSend_guard_witness :
  handleSend_begin (setQuestionInput "   " Scenario.beforeSend) = None /\
  handleSend_begin (setActiveSessionId (Some "z") Scenario.beforeSend) = None.
Proof.
  split.
  - apply (handleSend_guard (setQuestionInput "   " Scenario.beforeSend)).
    left. reflexivity.
  - apply (handleSend_guard (setActiveSessionId (Some "z") Scenario.beforeSend)).
    right. right. exists "z". split; reflexivity.
Defined.

(** ** What an ingest sends and what it shows *)

Lemma truthy_or_else (a b : string) :
  truthy b = true -> truthy (or_else a b) = true.
Proof. intros Hb. unfold or_else. destruct (truthy a) eqn:Ha; assumption. Qed.

Lemma truthy_placeholderTitle (r : State) : truthy (placeholderTitle r) = true.
Proof. reflexivity. Qed.

(** [handleIngest] sends a request exactly when the url input is not
    empty (a url of blanks is sent as it is).  The request carries the url
    as typed and a description that is never empty: the typed title, or,
    when no title is typed, "Video N" with N one more than the number of
    sessions.  On success the new session's title is never empty: it is the
    description returned by the backend when that is present and not empty,
    and otherwise the description that was sent. *)
Theorem ingest_sends_what_it_shows :
  forall r : State,
    (handleIngest_begin r = None <-> urlInput r = "") /\
    (forall (body : ingest_body) (st1 : State),
        handleIngest_begin r = Some (body, st1) ->
        body_url body = urlInput r /\
        truthy (body_description body) = true /\
        (truthy (titleInput r) = true -> body_description body = titleInput r) /\
        (truthy (titleInput r) = false ->
         body_description body
         = ("Video " ++ numberToString (length (sessions r) + 1))%string) /\
        forall (res : Response ingest_json) (data : ingest_json) (st : State),
          ok res = true -> json res = Fulfilled data ->
          exists fresh : ChatSession,
            sessions (handleIngest_settle r (Fulfilled res) st) = fresh :: sessions r /\
            truthy (title fresh) = true /\
            (forall d : string,
                video_description data = Some d -> truthy d = true ->
                title fresh = d) /\
            (video_description data = None \/ video_description data = Some "" ->
             title fresh = body_description body)).
Proof.
  intros r. split.
  - unfold handleIngest_begin. destruct (urlInput r); simpl; split;
      intros H; try reflexivity; discriminate.
  - intros body st1 Hb. unfold handleIngest_begin in Hb.
    destruct (negb (truthy (urlInput r))); [discriminate|].
    inversion Hb; subst; clear Hb. simpl.
    split; [reflexivity|].
    split; [apply truthy_or_else; reflexivity|].
    split; [intros Ht; unfold or_else; rewrite Ht; reflexivity|].
    split; [intros Ht; unfold or_else; rewrite Ht; reflexivity|].
    intros res data st Hok Hj.
    destruct (handleIngest_settle_success r res data st Hok Hj) as [Hs _].
    eexists. split; [exact Hs|]. simpl.
    assert (Hd : truthy (or_else (titleInput r) (placeholderTitle r)) = true)
      by (apply truthy_or_else; reflexivity).
    split; [|split].
    + destruct (video_description data) as [d|]; simpl; [|exact Hd].
      apply truthy_or_else. exact Hd.
    + intros d Hdesc Htr. rewrite Hdesc. simpl. unfold or_else at 1.
      rewrite Htr. reflexivity.
    + intros [Hdesc|Hdesc]; rewrite Hdesc; reflexivity.
Qed.

Lemma ingest_sends_what_it_shows_witness :
  exists (body : ingest_body) (st1 : State),
    handleIngest_begin Scenario.beforeIngest = Some (body, st1) /\
    body_url body = "https://youtu.be/b" /\
    body_description body = "Video 2".
Proof.
  eexists; eexists. split; [reflexivity|].
  destruct (ingest_sends_what_it_shows Scenario.beforeIngest) as [_ H].
  match goal with
  | |- body_url ?b = _ /\ _ =>
      destruct (H b (setStatusText "Downloading and processing..."
                       (setLoading true Scenario.beforeIngest)) eq_refl)
        as (H1 & _ & _ & H3 & _)
  end.
  split; [exact H1 | apply H3; reflexivity].
Defined.

(** After a successful ingest the session found for the active pointer is
    the new one, with the returned key as key and backend identifier and an
    empty history, also when an older session has the same key; the chat
    view is shown exactly when the returned key is not the empty string
    (with an empty key the setup card stays); url, title and status line are
    cleared, the busy flag is cleared, the question input and the alerts
    are untouched. *)
Theorem ingest_success_opens_fresh_session :
  forall (r : State) (res : Response ingest_json) (data : ingest_json) (st : State),
    ok res = true -> json res = Fulfilled data ->
    exists fresh : ChatSession,
      activeChat (handleIngest_settle r (Fulfilled res) st) = Some fresh /\
      uniqueId fresh = video_url data /\ id fresh = video_url data /\
      messages fresh = [] /\
      Page.showsChat (handleIngest_settle r (Fulfilled res) st)
      = truthy (video_url data) /\
      Page.showsSetup (handleIngest_settle r (Fulfilled res) st)
      = negb (truthy (video_url data)) /\
      urlInput (handleIngest_settle r (Fulfilled res) st) = "" /\
      titleInput (handleIngest_settle r (Fulfilled res) st) = "" /\
      statusText (handleIngest_settle r (Fulfilled res) st) = "" /\
      loading (handleIngest_settle r (Fulfilled res) st) = false /\
      questionInput (handleIngest_settle r (Fulfilled res) st) = questionInput st /\
      alerted (handleIngest_settle r (Fulfilled res) st) = alerted st.
Proof.
  intros r res data st Hok Hj.
  assert (Hst : handleIngest_settle r (Fulfilled res) st
                = setLoading false
                    (setStatusText ""
                      (setTitleInput ""
                        (setUrlInput ""
                          (setActiveSessionId (Some (video_url data))
                            (setSessions
                               (fun _ =>
                                  {| id := video_url data; uniqueId := video_url data;
                                     title := opt_or_else (video_description data)
                                                (or_else (titleInput r)
                                                   (placeholderTitle r));
                                     messages := [] |} :: sessions r) st)))))).
  { open_try. rewrite Hok, Hj. reflexivity. }
  rewrite Hst. eexists.
  split; [unfold activeChat; simpl; rewrite String.eqb_refl; reflexivity|].
  unfold Page.showsChat, Page.showsSetup, Page.truthyId, activeChat. simpl.
  rewrite String.eqb_refl, andb_true_r. repeat split.
Qed.

Lemma ingest_success_opens_fresh_session_witness :
  exists fresh : ChatSession,
    activeChat (handleIngest_settle Scenario.beforeIngest
                  (Page.ok200 {| video_url := "a"; video_description := None |})
                  Scenario.beforeIngest) = Some fresh /\
    messages fresh = [] /\
    Store.keys (handleIngest_settle Scenario.beforeIngest
                  (Page.ok200 {| video_url := "a"; video_description := None |})
                  Scenario.beforeIngest) = ["a"; "a"].
Proof.
  destruct (ingest_success_opens_fresh_session Scenario.beforeIngest
              {| ok := true; res_statusText := "OK"; text := Fulfilled "";
                 json := Fulfilled {| video_url := "a"; video_description := None |} |}
              {| video_url := "a"; video_description := None |}
              Scenario.beforeIngest eq_refl eq_refl)
    as (fresh & Hc & _ & _ & Hm & _).
  exists fresh. split; [exact Hc|]. split; [exact Hm | reflexivity].
Defined.

(** ** How deleting and appending compose *)

Lemma filter_filter_comm {A : Type} (p q : A -> bool) (l : list A) :
  filter p (filter q l) = filter q (filter p l).
Proof.
  induction l as [|a l IH]; simpl; [reflexivity|].
  destruct (p a) eqn:Hp, (q a) eqn:Hq; simpl; rewrite ?Hp, ?Hq, IH; reflexivity.
Qed.

Lemma filter_idem {A : Type} (p : A -> bool) (l : list A) :
  filter p (filter p l) = filter p l.
Proof.
  induction l as [|a l IH]; simpl; [reflexivity|].
  destruct (p a) eqn:Hp; simpl; rewrite ?Hp, IH; reflexivity.
Qed.

Lemma filter_deliver_same (k : string) (m : Message) (l : list ChatSession) :
  filter (fun s => negb (uniqueId s =? k)) (map (Store.deliver k m) l)
  = filter (fun s => negb (uniqueId s =? k)) l.
Proof.
  induction l as [|s l IH]; simpl; [reflexivity|].
  rewrite deliver_keeps_key, IH. unfold Store.deliver.
  destruct (uniqueId s =? k); reflexivity.
Qed.

Lemma filter_deliver_other (k k' : string) (m : Message) (l : list ChatSession) :
  filter (fun s => negb (uniqueId s =? k)) (map (Store.deliver k' m) l)
  = map (Store.deliver k' m) (filter (fun s => negb (uniqueId s =? k)) l).
Proof.
  induction l as [|s l IH]; simpl; [reflexivity|].
  rewrite deliver_keeps_key, IH.
  destruct (uniqueId s =? k); reflexivity.
Qed.

Lemma deliver_deliver_comm (k1 k2 : string) (m1 m2 : Message) (l : list ChatSession) :
  k1 <> k2 ->
  map (Store.deliver k1 m1) (map (Store.deliver k2 m2) l)
  = map (Store.deliver k2 m2) (map (Store.deliver k1 m1) l).
Proof.
  intros Hk. induction l as [|s l IH]; simpl; [reflexivity|].
  rewrite IH. f_equal. unfold Store.deliver.
  destruct (uniqueId s =? k1) eqn:E1, (uniqueId s =? k2) eqn:E2; simpl;
    rewrite ?E1, ?E2; try reflexivity.
  apply String.eqb_eq in E1, E2. congruence.
Qed.

(** Deleting is idempotent and two deletions commute: the delete buttons
    of two sessions can be pressed in either order, or one twice, with the
    same resulting page. *)
Theorem handleDelete_idempotent_commutes :
  forall (k1 k2 : string) (st : State),
    handleDelete k1 (handleDelete k1 st) = handleDelete k1 st /\
    handleDelete k1 (handleDelete k2 st) = handleDelete k2 (handleDelete k1 st).
Proof.
  intros k1 k2 [ss act u t q l stx al lg]. unfold handleDelete, setSessions,
    setActiveSessionId. simpl. split.
  - destruct act as [a|]; [destruct (a =? k1) eqn:E|]; simpl; rewrite ?E; simpl;
      f_equal; apply filter_idem.
  - destruct act as [a|]; [destruct (a =? k1) eqn:E1, (a =? k2) eqn:E2|]; simpl;
      rewrite ?E1, ?E2; simpl; f_equal; apply filter_filter_comm.
Qed.

(** A message appended to a session that is then deleted leaves no trace,
    deleting one session and appending to another commute, and so do two
    appends under different keys: an answer that arrives just before or
    just after another session is deleted gives the same page. *)
Theorem delete_and_append_compose :
  forall (k k' : string) (m m' : Message) (st : State),
    handleDelete k (addMessageToSession k m st) = handleDelete k st /\
    (k <> k' ->
     handleDelete k (addMessageToSession k' m st)
     = addMessageToSession k' m (handleDelete k st)) /\
    (k <> k' ->
     addMessageToSession k m (addMessageToSession k' m' st)
     = addMessageToSession k' m' (addMessageToSession k m st)).
Proof.
  intros k k' m m' [ss act u t q l stx al lg].
  unfold handleDelete, addMessageToSession, setSessions, setActiveSessionId.
  simpl. split; [|split].
  - destruct act as [a|]; [destruct (a =? k)|]; simpl; f_equal;
      apply (filter_deliver_same k m ss).
  - intros _. destruct act as [a|]; [destruct (a =? k)|]; simpl; f_equal;
      apply (filter_deliver_other k k' m ss).
  - intros Hk. f_equal. apply (deliver_deliver_comm k k' m m' ss Hk).
Qed.

Lemma delete_and_append_compose_witness :
  handleDelete "b"
    (addMessageToSession "a" {| role := assistant; content := "answer" |}
       Scenario.afterSend)
  = addMessageToSession "a" {| role := assistant; content := "answer" |}
      (handleDelete "b" Scenario.afterSend).
Proof.
  destruct (delete_and_append_compose "b" "a"
              {| role := assistant; content := "answer" |}
              {| role := assistant; content := "answer" |}
              Scenario.afterSend) as (_ & H & _).
  apply H. discriminate.
Defined.

(** ** Events that keep the collection *)

Lemma header_deliver (k : string) (m : Message) (l : list ChatSession) :
  map Reach.header (map (Store.deliver k m) l) = map Reach.header l.
Proof.
  induction l as [|s l IH]; simpl; [reflexivity|].
  rewrite IH. f_equal. unfold Store.deliver.
  destruct (uniqueId s =? k); reflexivity.
Qed.

Lemma extends_refl (l : list ChatSession) :
  Forall2 (fun c c' => exists tail, messages c' = messages c ++ tail) l l.
Proof.
  induction l as [|s l IH]; constructor; [|exact IH].
  exists []. symmetry. apply app_nil_r.
Qed.

Lemma extends_deliver (k : string) (m : Message) (l : list ChatSession) :
  Forall2 (fun c c' => exists tail, messages c' = messages c ++ tail)
          l (map (Store.deliver k m) l).
Proof.
  induction l as [|s l IH]; simpl; constructor; [|exact IH].
  unfold Store.deliver. destruct (uniqueId s =? k).
  - exists [m]. reflexivity.
  - exists []. symmetry. apply app_nil_r.
Qed.

(** Only the delete button and the settlement of a listing or of an ingest
    change which sessions there are.  Every other event (selecting, typing,
    starting an ingest, sending a question, an answer or an error coming
    back) leaves the number and order of the sessions and their backend
    identifier, key and title as they are, and leaves every history as it
    was or with messages added at its end. *)
Theorem step_keeps_collection :
  forall (s : Page.system) (e : Page.event),
    Reach.keepsCollection e = true ->
    map Reach.header (sessions (Page.page (Page.step s e)))
    = map Reach.header (sessions (Page.page s)) /\
    Forall2 (fun c c' => exists tail, messages c' = messages c ++ tail)
            (sessions (Page.page s))
            (sessions (Page.page (Page.step s e))).
Proof.
  intros s e Hk. unfold Page.step.
  destruct (Page.enabled s e) eqn:En; [|split; [reflexivity | apply extends_refl]].
  destruct s as [st fl]. unfold Page.enabled in En.
  cbn [Page.page Page.inflight] in *.
  destruct e as [ |k|k|v|v| |v| |n o]; try discriminate; unfold Page.fire;
    cbn [Page.page Page.inflight Page.withPage];
    try (split; [reflexivity | apply extends_refl]).
  - destruct (handleIngest_begin st) as [[body st1]|] eqn:Hb;
      cbn [Page.page]; [|split; [reflexivity | apply extends_refl]].
    unfold handleIngest_begin in Hb.
    destruct (negb (truthy (urlInput st))); [discriminate|].
    inversion Hb; subst. split; [reflexivity | apply extends_refl].
  - destruct (handleSend_begin st) as [[body st1]|] eqn:Hb;
      cbn [Page.page]; [|split; [reflexivity | apply extends_refl]].
    destruct (handleSend_begin_inv st body st1 Hb) as (chat & _ & _ & _ & Hst1).
    subst st1.
    replace (sessions _)
      with (map (Store.deliver (uniqueId chat)
                   {| role := user; content := questionInput st |}) (sessions st))
      by reflexivity.
    split; [apply header_deliver | apply extends_deliver].
  - destruct (nth_error fl n) as [q|] eqn:Hn; [|discriminate].
    cbn [Page.page].
    destruct q as [|r body|r body]; destruct o as [o|o|o]; try discriminate.
    cbn [Page.settle]. unfold handleSend_settle.
    destruct (activeChat r) as [chat|] eqn:Hc;
      [|split; [reflexivity | apply extends_refl]].
    destruct (handleSend_settle_delivers r chat o st Hc) as (reply & _ & Hst & _).
    unfold handleSend_settle in Hst. rewrite Hc in Hst. rewrite Hst.
    replace (sessions _)
      with (map (Store.deliver (uniqueId chat) reply) (sessions st))
      by reflexivity.
    split; [apply header_deliver | apply extends_deliver].
Qed.

Lemma step_keeps_collection_witness :
  map Reach.header
      (sessions (Page.page
                   (Page.step
                      (Page.run (firstn 3 Scenario.deletedBeforeAnswer) Page.mounted)
                      Page.Send)))
  = map Reach.header
        (sessions (Page.page
                     (Page.run (firstn 3 Scenario.deletedBeforeAnswer) Page.mounted))).
Proof.
  apply (step_keeps_collection
           (Page.run (firstn 3 Scenario.deletedBeforeAnswer) Page.mounted)
           Page.Send).
  reflexivity.
Defined.

(** ** Looking up a hydrated session *)

Lemma find_sessionOfRow (k : string) (rows : list video_row) :
  find (isActive (Some k)) (map sessionOfRow rows)
  = option_map sessionOfRow (Reach.rowOf k rows).
Proof.
  unfold Reach.rowOf. induction rows as [|v rows IH]; simpl; [reflexivity|].
  destruct (url v =? k); [reflexivity | exact IH].
Qed.

Lemma existsb_sessionOfRow (k : string) (rows : list video_row) :
  existsb (fun s => uniqueId s =? k) (map sessionOfRow rows)
  = match Reach.rowOf k rows with Some _ => true | None => false end.
Proof.
  unfold Reach.rowOf. induction rows as [|v rows IH]; simpl; [reflexivity|].
  destruct (url v =? k); [reflexivity | exact IH].
Qed.

(** After a successful listing, a key is in the sidebar exactly when some
    record has it as url, and selecting it opens the session made from the
    first such record (its description as title, an empty history); later
    records with the same url are never shown. *)
Theorem hydrated_session_lookup :
  forall (rows : list video_row) (res : Response listing) (st : State) (k : string),
    ok res = true ->
    json res = Fulfilled (JsonArray rows) ->
    Page.listed k (fetchVideosFromDB_settle (Fulfilled res) st)
    = match Reach.rowOf k rows with Some _ => true | None => false end /\
    activeChat (setActiveSessionId (Some k)
                  (fetchVideosFromDB_settle (Fulfilled res) st))
    = option_map sessionOfRow (Reach.rowOf k rows).
Proof.
  intros rows res st k Hok Hj.
  assert (Hs : sessions (fetchVideosFromDB_settle (Fulfilled res) st)
               = map sessionOfRow rows).
  { open_try. rewrite Hok, Hj. reflexivity. }
  unfold Page.listed, activeChat. simpl. rewrite Hs. split.
  - apply existsb_sessionOfRow.
  - apply find_sessionOfRow.
Qed.

Lemma hydrated_session_lookup_witness :
  activeChat (setActiveSessionId (Some "u2")
                (fetchVideosFromDB_settle
                   (Page.ok200 (JsonArray Scenario.twoRows)) Scenario.afterSend))
  = Some {| id := "u2"; uniqueId := "u2"; title := "d2"; messages := [] |}.
Proof.
  destruct (hydrated_session_lookup Scenario.twoRows
              {| ok := true; res_statusText := "OK"; text := Fulfilled "";
                 json := Fulfilled (JsonArray Scenario.twoRows) |}
              Scenario.afterSend "u2" eq_refl eq_refl) as [_ H].
  exact H.
Defined.

(** ** The video-list page *)

Lemma truthy_trim_nonempty (s : string) :
  truthy (trim s) = true -> truthy s = true.
Proof.
  rewrite truthy_trim. destruct s; simpl; [discriminate | reflexivity].
Qed.

(** What [handleSend_settle] of the video-list page does: one assistant
    message at the end of the displayed messages, the stored histories
    either untouched or extended for the video that was active at
    submission, the busy flag cleared, nothing else changed. *)
Lemma videoList_handleSend_settle_shape (r : VideoChatHome.State) (active : string)
  (o : settled (Response query_json)) (st : VideoChatHome.State) :
  VideoChatHome.activeVideoId r = Some active ->
  exists (reply : Message) (vs : list VideoChatHome.VideoChat),
    role reply = assistant /\
    VideoChatHome.handleSend_settle r o st
    = VideoChatHome.setLoading false
        (VideoChatHome.setVideos (fun _ => vs)
           (VideoChatHome.setCurrentMessages (fun prev => prev ++ [reply]) st)) /\
    (vs = VideoChatHome.videos st \/
     vs = map (VideoListPage.deliverExchange active
                 {| role := user; content := VideoChatHome.question r |} reply)
              (VideoChatHome.videos st)) /\
    (forall (res : Response query_json) (data : query_json),
        o = Fulfilled res -> ok res = true -> json res = Fulfilled data ->
        content reply = response data /\
        vs = map (VideoListPage.deliverExchange active
                    {| role := user; content := VideoChatHome.question r |} reply)
                 (VideoChatHome.videos st)) /\
    (forall t : string,
        Store.failsWith o t ->
        vs = VideoChatHome.videos st /\
        content reply = ("Error: " ++ t)%string).
Proof.
  intros Ha. unfold VideoChatHome.handleSend_settle. rewrite Ha.
  unfold VideoChatHome.handleSend_try, tryCatch, bind.
  destruct o as [res|err]; simpl.
  - destruct (ok res) eqn:Hok; simpl.
    + destruct (json res) as [data|err] eqn:Hj; simpl.
      * exists {| role := assistant; content := response data |}.
        eexists. split; [reflexivity|]. split; [reflexivity|].
        split; [right; reflexivity|]. split.
        -- intros res' data' E _ Hj'. inversion E; subst res'.
           rewrite Hj in Hj'. inversion Hj'. split; reflexivity.
        -- intros t F. inversion F; subst. congruence.
      * exists {| role := assistant;
                  content := ("Error: " ++ messageOr "Failed to query" err)%string |}.
        exists (VideoChatHome.videos st).
        split; [reflexivity|]. split; [reflexivity|].
        split; [left; reflexivity|]. split.
        -- intros res' data' E _ Hj'. inversion E; subst res'. congruence.
        -- intros t F. inversion F; subst. congruence.
    + destruct (text res) as [body|err] eqn:Ht; simpl.
      * exists {| role := assistant; content := ("Error: " ++ body)%string |}.
        exists (VideoChatHome.videos st).
        split; [reflexivity|]. split; [reflexivity|].
        split; [left; reflexivity|]. split.
        -- intros res' data' E Hok'. inversion E; subst res'. congruence.
        -- intros t F. inversion F as [|res' body' _ Ht' E1 E2]; subst.
           rewrite Ht in Ht'. inversion Ht'. split; reflexivity.
      * exists {| role := assistant;
                  content := ("Error: " ++ messageOr "Failed to query" err)%string |}.
        exists (VideoChatHome.videos st).
        split; [reflexivity|]. split; [reflexivity|].
        split; [left; reflexivity|]. split.
        -- intros res' data' E Hok'. inversion E; subst res'. congruence.
        -- intros t F. inversion F; subst. congruence.
  - exists {| role := assistant;
              content := ("Error: " ++ messageOr "Failed to query" err)%string |}.
    exists (VideoChatHome.videos st).
    split; [reflexivity|]. split; [reflexivity|].
    split; [left; reflexivity|]. split.
    + intros res data E. discriminate E.
    + intros t F. inversion F; subst. split; reflexivity.
Qed.

Lemma videoList_handleSend_begin_inv (r : VideoChatHome.State)
  (body : VideoChatHome.query_body) (st1 : VideoChatHome.State) :
  VideoChatHome.handleSend_begin r = Some (body, st1) ->
  exists active : string,
    VideoChatHome.activeVideoId r = Some active /\
    truthy active = true /\
    truthy (trim (VideoChatHome.question r)) = true /\
    body = {| VideoChatHome.body_question := VideoChatHome.question r;
              VideoChatHome.body_video_id := active;
              VideoChatHome.top_k := 5 |} /\
    st1 = VideoChatHome.setLoading true
            (VideoChatHome.setQuestion ""
               (VideoChatHome.setCurrentMessages
                  (fun prev => prev ++ [ {| role := user;
                                            content := VideoChatHome.question r |} ])
                  r)).
Proof.
  unfold VideoChatHome.handleSend_begin. intros H.
  destruct (VideoChatHome.activeVideoId r) as [active|]; [|discriminate].
  destruct (truthy (trim (VideoChatHome.question r))); simpl in H; [|discriminate].
  destruct (truthy active) eqn:Hact; simpl in H; [|discriminate].
  inversion H; subst. exists active. repeat split; try reflexivity. exact Hact.
Qed.

Lemma videoId_deliverExchange (active : string) (u a : Message)
  (v : VideoChatHome.VideoChat) :
  VideoChatHome.videoId (VideoListPage.deliverExchange active u a v)
  = VideoChatHome.videoId v.
Proof.
  unfold VideoListPage.deliverExchange.
  destruct (VideoChatHome.videoId v =? active); reflexivity.
Qed.

Lemma find_deliverExchange (k active : string) (u a : Message)
  (l : list VideoChatHome.VideoChat) :
  find (fun v => VideoChatHome.videoId v =? k)
       (map (VideoListPage.deliverExchange active u a) l)
  = option_map (VideoListPage.deliverExchange active u a)
      (find (fun v => VideoChatHome.videoId v =? k) l).
Proof.
  induction l as [|v l IH]; simpl; [reflexivity|].
  rewrite videoId_deliverExchange.
  destruct (VideoChatHome.videoId v =? k); [reflexivity | exact IH].
Qed.

Lemma In_deliverExchange_other (active : string) (u a : Message)
  (v : VideoChatHome.VideoChat) (l : list VideoChatHome.VideoChat) :
  VideoChatHome.videoId v <> active -> In v l ->
  In v (map (VideoListPage.deliverExchange active u a) l).
Proof.
  intros Hv Hin. apply in_map_iff. exists v. split; [|exact Hin].
  unfold VideoListPage.deliverExchange.
  destruct (String.eqb_spec (VideoChatHome.videoId v) active); [congruence|reflexivity].
Qed.

(** On the video-list page, the answer (or the error text) of a question
    is put at the end of the displayed messages whatever video is displayed
    when the request settles: if another video has been selected in the
    meantime, that video is still stored unchanged and still selected, and
    the display shows its history followed by the reply to the other
    video's question. *)
Theorem videoList_answer_follows_display :
  forall (r : VideoChatHome.State) (body : VideoChatHome.query_body)
         (st1 : VideoChatHome.State) (o : settled (Response query_json))
         (st0 : VideoChatHome.State) (v : VideoChatHome.VideoChat),
    VideoChatHome.handleSend_begin r = Some (body, st1) ->
    Some (VideoChatHome.videoId v) <> VideoChatHome.activeVideoId r ->
    In v (VideoChatHome.videos st0) ->
    exists reply : Message,
      role reply = assistant /\
      VideoChatHome.currentMessages
        (VideoChatHome.handleSend_settle r o (VideoChatHome.selectVideo v st0))
      = VideoChatHome.messages v ++ [reply] /\
      In v (VideoChatHome.videos
              (VideoChatHome.handleSend_settle r o (VideoChatHome.selectVideo v st0))) /\
      VideoChatHome.activeVideoId
        (VideoChatHome.handleSend_settle r o (VideoChatHome.selectVideo v st0))
      = Some (VideoChatHome.videoId v).
Proof.
  intros r body st1 o st0 v Hb Hv Hin.
  destruct (videoList_handleSend_begin_inv r body st1 Hb) as (active & Ha & _).
  destruct (videoList_handleSend_settle_shape r active o
              (VideoChatHome.selectVideo v st0) Ha)
    as (reply & vs & Hrole & Hst & Hvs & _).
  exists reply. rewrite Hst. simpl.
  split; [exact Hrole|]. split; [reflexivity|]. split; [|reflexivity].
  destruct Hvs as [E|E]; rewrite E; simpl.
  - exact Hin.
  - apply In_deliverExchange_other; [|exact Hin].
    intros Eid. apply Hv. rewrite Ha, Eid. reflexivity.
Qed.



Lemma videoList_handleProcess_settle_loading (r : VideoChatHome.State)
  (o : settled (Response VideoChatHome.ingest_json)) (st : VideoChatHome.State) :
  VideoChatHome.loading (VideoChatHome.handleProcess_settle r o st) = false.
Proof. reflexivity. Qed.

Lemma videoList_step_consistent (s : VideoListPage.system) (e : VideoListPage.event) :
  VideoListPage.consistent s -> VideoListPage.consistent (VideoListPage.step s e).
Proof.
  intros (Hbusy & Hreq). unfold VideoListPage.step.
  destruct (VideoListPage.enabled s e) eqn:En; [|split; assumption].
  destruct s as [st fl]. unfold VideoListPage.consistent in *.
  unfold VideoListPage.enabled in En.
  cbn [VideoListPage.page VideoListPage.inflight] in *.
  assert (Hsend : VideoChatHome.loading st = false ->
                  VideoListPage.consistent
                    (VideoListPage.send {| VideoListPage.page := st;
                                           VideoListPage.inflight := fl |})).
  { intros Hl. unfold VideoListPage.send, VideoListPage.consistent.
    cbn [VideoListPage.page VideoListPage.inflight].
    destruct (VideoChatHome.handleSend_begin st) as [[body st1]|] eqn:Hb;
      cbn [VideoListPage.page VideoListPage.inflight]; [|split; assumption].
    destruct (videoList_handleSend_begin_inv st body st1 Hb)
      as (active & Ha & _ & _ & _ & Hst1).
    subst st1. simpl. rewrite Hl in Hbusy. rewrite length_app, Hbusy.
    split; [reflexivity|].
    apply Forall_app. split; [assumption|].
    constructor; [exists active; exact Ha | constructor]. }
  destruct e as [v| |n|v| | |n o]; unfold VideoListPage.fire;
    cbn [VideoListPage.page VideoListPage.inflight].
  - split; assumption.
  - apply negb_true_iff, orb_false_iff in En. destruct En as [Hl Hu].
    apply negb_false_iff, truthy_trim_nonempty in Hu.
    unfold VideoChatHome.handleProcess_begin. rewrite Hu. simpl.
    rewrite Hl in Hbusy. rewrite length_app, Hbusy.
    split; [reflexivity|].
    apply Forall_app. split; [assumption|]. constructor; [exact I|constructor].
  - destruct (nth_error (VideoChatHome.videos st) n);
      cbn [VideoListPage.page VideoListPage.inflight]; split; assumption.
  - split; assumption.
  - apply Hsend. apply andb_true_iff in En. destruct En as [_ Hl].
    apply negb_true_iff in Hl. exact Hl.
  - apply Hsend. apply andb_true_iff in En. destruct En as [_ Hl].
    apply negb_true_iff, orb_false_iff in Hl. apply Hl.
  - destruct (nth_error fl n) as [q|] eqn:Hn; [|discriminate].
    destruct (remove_nth_split fl n q Hn) as (l1 & l2 & E1 & E2).
    cbn [VideoListPage.page VideoListPage.inflight].
    rewrite E2. rewrite E1 in Hbusy, Hreq.
    rewrite length_app in Hbusy. simpl in Hbusy.
    apply Forall_remove in Hreq. destruct Hreq as [Hq Hrest].
    assert (Hzero : length (l1 ++ l2) = 0).
    { rewrite length_app. destruct (VideoChatHome.loading st); lia. }
    destruct q as [r sent|r body]; destruct o as [o|o]; try discriminate;
      cbn [VideoListPage.settle].
    + rewrite videoList_handleProcess_settle_loading. split; assumption.
    + destruct Hq as [active Ha].
      destruct (videoList_handleSend_settle_shape r active o st Ha)
        as (reply & vs & _ & Hst & _).
      rewrite Hst. cbn [VideoChatHome.loading VideoChatHome.setLoading].
      split; assumption.
Qed.

Lemma videoList_run_invariant (I : VideoListPage.system -> Prop) :
  (forall s e, I s -> I (VideoListPage.step s e)) ->
  forall (es : list VideoListPage.event) (s : VideoListPage.system),
    I s -> I (VideoListPage.run es s).
Proof.
  intros Hstep es. induction es as [|e es IH]; intros s Hs; simpl.
  - exact Hs.
  - apply IH. apply Hstep. exact Hs.
Qed.

(** On the video-list page too the busy flag is accurate in every state
    that can be reached through the rendered controls: at most one request
    (ingest or query) is pending, and the flag is set exactly while there is
    one. *)
Theorem videoList_busy_flag_counts_pending :
  forall es : list VideoListPage.event,
    length (VideoListPage.inflight (VideoListPage.run es VideoListPage.start)) <= 1 /\
    (VideoChatHome.loading
       (VideoListPage.page (VideoListPage.run es VideoListPage.start)) = true <->
     length (VideoListPage.inflight (VideoListPage.run es VideoListPage.start)) = 1).
Proof.
  intros es.
  assert (H0 : VideoListPage.consistent VideoListPage.start)
    by (split; [reflexivity | constructor]).
  destruct (videoList_run_invariant VideoListPage.consistent
              videoList_step_consistent es VideoListPage.start H0) as [Hbusy _].
  rewrite Hbusy.
  destruct (VideoChatHome.loading
              (VideoListPage.page (VideoListPage.run es VideoListPage.start)));
    repeat split; intros; try lia; try reflexivity; try discriminate.
Qed.

(** On the video-list page a successful exchange keeps the display in step
    with the store: if the displayed messages are the stored history of the
    active video when a question is sent, and the request succeeds before
    anything else happens, then the active video's stored history is its
    previous history followed by the question and the answer, and the
    display shows exactly that history. *)
Theorem videoList_success_keeps_display_in_step :
  forall (r : VideoChatHome.State) (v : VideoChatHome.VideoChat)
         (body : VideoChatHome.query_body) (st1 : VideoChatHome.State)
         (res : Response query_json) (data : query_json),
    VideoListPage.activeChat r = Some v ->
    VideoChatHome.currentMessages r = VideoChatHome.messages v ->
    VideoChatHome.handleSend_begin r = Some (body, st1) ->
    ok res = true -> json res = Fulfilled data ->
    exists v2 : VideoChatHome.VideoChat,
      VideoListPage.activeChat
        (VideoChatHome.handleSend_settle r (Fulfilled res) st1) = Some v2 /\
      VideoChatHome.messages v2
      = VideoChatHome.messages v
          ++ [ {| role := user; content := VideoChatHome.question r |};
               {| role := assistant; content := response data |} ] /\
      VideoChatHome.currentMessages
        (VideoChatHome.handleSend_settle r (Fulfilled res) st1)
      = VideoChatHome.messages v2.
Proof.
  intros r v body st1 res data Hv Hcur Hb Hok Hj.
  destruct (videoList_handleSend_begin_inv r body st1 Hb)
    as (active & Ha & _ & _ & _ & Hst1).
  destruct (videoList_handleSend_settle_shape r active (Fulfilled res) st1 Ha)
    as (reply & vs & Hrole & Hst & _ & Hsucc & _).
  destruct (Hsucc res data eq_refl Hok Hj) as [Hcontent Hvs].
  destruct reply as [rr rc]. simpl in Hrole, Hcontent. subst rr rc.
  unfold VideoListPage.activeChat in *. rewrite Ha in Hv.
  rewrite Hst, Hvs, Hst1. simpl. rewrite Ha.
  rewrite find_deliverExchange, Hv. simpl.
  eexists. split; [reflexivity|].
  assert (Hid : (VideoChatHome.videoId v =? active) = true).
  { apply find_some in Hv. apply Hv. }
  unfold VideoListPage.deliverExchange. rewrite Hid. simpl.
  split; [reflexivity|]. rewrite Hcur, <- app_assoc. reflexivity.
Qed.

Lemma videoList_success_keeps_display_in_step_witness :
  exists v2 : VideoChatHome.VideoChat,
    VideoListPage.activeChat
      (VideoChatHome.handleSend_settle VideoListPage.beforeQuestion
         (Page.ok200 {| response := "It's a cooking tutorial." |})
         (VideoChatHome.setLoading true
            (VideoChatHome.setQuestion ""
               (VideoChatHome.setCurrentMessages
                  (fun prev => prev ++ [ {| role := user;
                                            content := "What is this about?" |} ])
                  VideoListPage.beforeQuestion)))) = Some v2 /\
    VideoChatHome.messages v2
    = [ {| role := user; content := "What is this about?" |};
        {| role := assistant; content := "It's a cooking tutorial." |} ].
Proof.
  destruct (videoList_success_keeps_display_in_step
              VideoListPage.beforeQuestion
              {| VideoChatHome.videoId := "v1"; VideoChatHome.title := "b";
                 VideoChatHome.messages := [] |}
              {| VideoChatHome.body_question := "What is this about?";
                 VideoChatHome.body_video_id := "v1"; VideoChatHome.top_k := 5 |}
              (VideoChatHome.setLoading true
                 (VideoChatHome.setQuestion ""
                    (VideoChatHome.setCurrentMessages
                       (fun prev => prev ++ [ {| role := user;
                                                 content := "What is this about?" |} ])
                       VideoListPage.beforeQuestion)))
              {| ok := true; res_statusText := "OK"; text := Fulfilled "";
                 json := Fulfilled {| response := "It's a cooking tutorial." |} |}
              {| response := "It's a cooking tutorial." |}
              eq_refl eq_refl eq_refl eq_refl eq_refl) as (v2 & H1 & H2 & _).
  exists v2. split; [exact H1 | exact H2].
Defined.

(** A successful ingest on the video-list page puts the new video after
    all videos of the list at settlement time, none of which is changed,
    selects it and empties the display; its title is the part of the url
    after the last slash, or "Video" when that part is empty, so it is never
    empty; the url input and the busy flag are cleared and the question
    input is untouched. *)
Theorem videoList_ingest_success :
  forall (r : VideoChatHome.State) (res : Response VideoChatHome.ingest_json)
         (data : VideoChatHome.ingest_json) (st : VideoChatHome.State),
    ok res = true -> json res = Fulfilled data ->
    exists fresh : VideoChatHome.VideoChat,
      VideoChatHome.videos (VideoChatHome.handleProcess_settle r (Fulfilled res) st)
      = VideoChatHome.videos st ++ [fresh] /\
      VideoChatHome.videoId fresh = VideoChatHome.video_id data /\
      VideoChatHome.messages fresh = [] /\
      truthy (VideoChatHome.title fresh) = true /\
      (truthy (lastSegment "" (VideoChatHome.url r)) = true ->
       VideoChatHome.title fresh = lastSegment "" (VideoChatHome.url r)) /\
      (truthy (lastSegment "" (VideoChatHome.url r)) = false ->
       VideoChatHome.title fresh = "Video") /\
      VideoChatHome.activeVideoId
        (VideoChatHome.handleProcess_settle r (Fulfilled res) st)
      = Some (VideoChatHome.video_id data) /\
      VideoChatHome.currentMessages
        (VideoChatHome.handleProcess_settle r (Fulfilled res) st) = [] /\
      VideoChatHome.url (VideoChatHome.handleProcess_settle r (Fulfilled res) st) = "" /\
      VideoChatHome.loading
        (VideoChatHome.handleProcess_settle r (Fulfilled res) st) = false /\
      VideoChatHome.question (VideoChatHome.handleProcess_settle r (Fulfilled res) st)
      = VideoChatHome.question st.
Proof.
  intros r res data st Hok Hj. open_try. rewrite Hok, Hj. simpl.
  eexists. split; [reflexivity|]. simpl.
  split; [reflexivity|]. split; [reflexivity|].
  split; [apply truthy_or_else; reflexivity|].
  split; [intros Hseg; unfold or_else; rewrite Hseg; reflexivity|].
  split; [intros Hseg; unfold or_else; rewrite Hseg; reflexivity|].
  repeat split.
Qed.

Lemma videoList_ingest_success_witness :
  VideoChatHome.videos
    (VideoListPage.page
       (VideoListPage.run (firstn 3 VideoListPage.failedQuestion) VideoListPage.start))
  = [ {| VideoChatHome.videoId := "v1"; VideoChatHome.title := "b";
         VideoChatHome.messages := [] |} ] /\
  exists fresh : VideoChatHome.VideoChat,
    VideoChatHome.videos
      (VideoChatHome.handleProcess_settle
         (VideoChatHome.setUrl "https://youtu.be/b/" VideoListPage.beforeQuestion)
         (Page.ok200 {| VideoChatHome.video_id := "v2";
                        VideoChatHome.chunk_count := 3 |})
         VideoListPage.beforeQuestion)
    = VideoChatHome.videos VideoListPage.beforeQuestion ++ [fresh] /\
    VideoChatHome.title fresh = "Video".
Proof.
  split; [vm_compute; reflexivity|].
  destruct (videoList_ingest_success
              (VideoChatHome.setUrl "https://youtu.be/b/" VideoListPage.beforeQuestion)
              {| ok := true; res_statusText := "OK"; text := Fulfilled "";
                 json := Fulfilled {| VideoChatHome.video_id := "v2";
                                      VideoChatHome.chunk_count := 3 |} |}
              {| VideoChatHome.video_id := "v2"; VideoChatHome.chunk_count := 3 |}
              VideoListPage.beforeQuestion eq_refl eq_refl)
    as (fresh & H1 & _ & _ & _ & _ & H2 & _).
  exists fresh. split; [exact H1 | apply H2; reflexivity].
Defined.

(** A failed ingest on the video-list page writes "Error: " followed by
    the error text into the status line and clears the busy flag; the list
    of videos, the selected video, the displayed messages and the typed url
    and question stay as they are. *)
Theorem videoList_ingest_failure_keeps_page :
  forall (r : VideoChatHome.State)
         (o : settled (Response VideoChatHome.ingest_json)) (t : string)
         (st : VideoChatHome.State),
    Store.failsWith o t ->
    VideoChatHome.status (VideoChatHome.handleProcess_settle r o st)
    = ("Error: " ++ t)%string /\
    VideoChatHome.loading (VideoChatHome.handleProcess_settle r o st) = false /\
    VideoChatHome.videos (VideoChatHome.handleProcess_settle r o st)
    = VideoChatHome.videos st /\
    VideoChatHome.activeVideoId (VideoChatHome.handleProcess_settle r o st)
    = VideoChatHome.activeVideoId st /\
    VideoChatHome.currentMessages (VideoChatHome.handleProcess_settle r o st)
    = VideoChatHome.currentMessages st /\
    VideoChatHome.url (VideoChatHome.handleProcess_settle r o st)
    = VideoChatHome.url st /\
    VideoChatHome.question (VideoChatHome.handleProcess_settle r o st)
    = VideoChatHome.question st.
Proof.
  intros r o t st Hf. rewrite (videoList_ingest_failure r o t st Hf).
  repeat split.
Qed.

Lemma videoList_ingest_failure_keeps_page_witness :
  VideoChatHome.status
    (VideoChatHome.handleProcess_settle VideoListPage.beforeQuestion
       (Page.status500 "Video unavailable") VideoListPage.beforeQuestion)
  = "Error: Video unavailable".
Proof.
  assert (Hf : Store.failsWith
                 (Page.status500 (J := VideoChatHome.ingest_json) "Video unavailable")
                 "Video unavailable")
    by (apply Store.http_error; reflexivity).
  apply (videoList_ingest_failure_keeps_page VideoListPage.beforeQuestion
           (Page.status500 "Video unavailable") "Video unavailable"
           VideoListPage.beforeQuestion Hf).
Defined.

Lemma videoList_answer_follows_display_witness :
  exists reply : Message,
    role reply = assistant /\
    VideoChatHome.currentMessages
      (VideoChatHome.handleSend_settle VideoListPage.beforeQuestion
         (Page.ok200 {| response := "It's a cooking tutorial." |})
         (VideoChatHome.selectVideo
            {| VideoChatHome.videoId := "v2"; VideoChatHome.title := "c";
               VideoChatHome.messages :=
                 [ {| role := user; content := "Who speaks?" |} ] |}
            (VideoChatHome.setVideos
               (fun prev => prev ++
                  [ {| VideoChatHome.videoId := "v2"; VideoChatHome.title := "c";
                       VideoChatHome.messages :=
                         [ {| role := user; content := "Who speaks?" |} ] |} ])
               VideoListPage.beforeQuestion)))
    = [ {| role := user; content := "Who speaks?" |}; reply ].
Proof.
  destruct (videoList_answer_follows_display
              VideoListPage.beforeQuestion
              {| VideoChatHome.body_question := "What is this about?";
                 VideoChatHome.body_video_id := "v1"; VideoChatHome.top_k := 5 |}
              (VideoChatHome.setLoading true
                 (VideoChatHome.setQuestion ""
                    (VideoChatHome.setCurrentMessages
                       (fun prev => prev ++ [ {| role := user;
                                                 content := "What is this about?" |} ])
                       VideoListPage.beforeQuestion)))
              (Page.ok200 {| response := "It's a cooking tutorial." |})
              (VideoChatHome.setVideos
                 (fun prev => prev ++
                    [ {| VideoChatHome.videoId := "v2"; VideoChatHome.title := "c";
                         VideoChatHome.messages :=
                           [ {| role := user; content := "Who speaks?" |} ] |} ])
                 VideoListPage.beforeQuestion)
              {| VideoChatHome.videoId := "v2"; VideoChatHome.title := "c";
                 VideoChatHome.messages :=
                   [ {| role := user; content := "Who speaks?" |} ] |}
              eq_refl)
    as (reply & Hrole & Hcur & _).
  - discriminate.
  - right. left. reflexivity.
  - exists reply. split; [exact Hrole | exact Hcur].
Defined.

(** ** Buttons and guards *)

(** Whenever the page offers a submit button, the handler goes past its
    guard and sends a request: "Start Chat" on the session-store page (so
    the early return of [handleIngest] is never taken from the button),
    "Ingest" and "Send" on the video-list page.  The video-list page offers
    "Ingest" only for a url that has a character other than white space.
    Enter in the question input of the video-list page changes nothing when
    the question is empty or made of white space only. *)
Theorem submit_buttons_pass_guards :
  (forall s : Page.system,
      Page.enabled s Page.StartChat = true ->
      exists (body : ingest_body) (st1 : State),
        handleIngest_begin (Page.page s) = Some (body, st1)) /\
  (forall s : VideoListPage.system,
      VideoListPage.enabled s VideoListPage.Ingest = true ->
      Reach.allWhiteSpace (VideoChatHome.url (VideoListPage.page s)) = false /\
      exists st1 : VideoChatHome.State,
        VideoChatHome.handleProcess_begin (VideoListPage.page s)
        = Some (VideoChatHome.url (VideoListPage.page s), st1)) /\
  (forall s : VideoListPage.system,
      VideoListPage.enabled s VideoListPage.ClickSend = true ->
      exists (body : VideoChatHome.query_body) (st1 : VideoChatHome.State),
        VideoChatHome.handleSend_begin (VideoListPage.page s) = Some (body, st1)) /\
  (forall s : VideoListPage.system,
      Reach.allWhiteSpace (VideoChatHome.question (VideoListPage.page s)) = true ->
      VideoListPage.step s VideoListPage.PressEnter = s).
Proof.
  split; [|split; [|split]].
  - intros s En. unfold Page.enabled in En. simpl in En.
    apply andb_true_iff in En. destruct En as [_ En].
    apply negb_true_iff, orb_false_iff in En. destruct En as [_ Hu].
    apply negb_false_iff in Hu.
    unfold handleIngest_begin. rewrite Hu. simpl. eexists; eexists. reflexivity.
  - intros s En. unfold VideoListPage.enabled in En. simpl in En.
    apply negb_true_iff, orb_false_iff in En. destruct En as [_ Hu].
    apply negb_false_iff in Hu.
    split.
    + rewrite truthy_trim in Hu. apply negb_true_iff. exact Hu.
    + unfold VideoChatHome.handleProcess_begin.
      rewrite (truthy_trim_nonempty _ Hu). simpl. eexists. reflexivity.
  - intros s En. unfold VideoListPage.enabled, VideoListPage.showsFooter in En.
    simpl in En. apply andb_true_iff in En. destruct En as [Hf En].
    apply negb_true_iff, orb_false_iff in En. destruct En as [_ Hq].
    apply negb_false_iff in Hq.
    unfold VideoChatHome.handleSend_begin.
    destruct (VideoChatHome.activeVideoId (VideoListPage.page s)) as [k|];
      [|discriminate].
    rewrite Hq, Hf. simpl. eexists; eexists. reflexivity.
  - intros s Hw. unfold VideoListPage.step.
    destruct (VideoListPage.enabled s VideoListPage.PressEnter); [|reflexivity].
    unfold VideoListPage.fire, VideoListPage.send, VideoChatHome.handleSend_begin.
    destruct (VideoChatHome.activeVideoId (VideoListPage.page s)); [|reflexivity].
    rewrite truthy_trim, Hw. reflexivity.
Qed.

Lemma submit_buttons_pass_guards_witness :
  (exists (body : ingest_body) (st1 : State),
      handleIngest_begin Scenario.beforeIngest = Some (body, st1)) /\
  VideoListPage.step
    {| VideoListPage.page :=
         VideoChatHome.setQuestion "  " VideoListPage.beforeQuestion;
       VideoListPage.inflight := [] |} VideoListPage.PressEnter
  = {| VideoListPage.page :=
         VideoChatHome.setQuestion "  " VideoListPage.beforeQuestion;
       VideoListPage.inflight := [] |}.
Proof.
  destruct submit_buttons_pass_guards as (H1 & _ & _ & H4).
  split.
  - apply (H1 {| Page.page := Scenario.beforeIngest; Page.inflight := [] |}).
    reflexivity.
  - apply H4. reflexivity.
Defined.

(** * The claims that depend on interleavings or on the page version *)

(** ** Keys along the runs of the page *)

Lemma sessions_fetch_settle (o : settled (Response listing)) (st : State) :
  sessions (fetchVideosFromDB_settle o st)
  = match Races.listedRows o with
    | Some rows => map sessionOfRow rows
    | None => if Store.answeredWithError o then sessions st else []
    end.
Proof.
  open_try. unfold Races.listedRows, Store.answeredWithError.
  destruct o as [res|err]; simpl; [|reflexivity].
  destruct (ok res); simpl; [|reflexivity].
  destruct (json res) as [[rows|j]|err]; reflexivity.
Qed.

Lemma sessions_ingest_settle (r : State) (o : settled (Response ingest_json))
  (st : State) :
  Store.keys (handleIngest_settle r o st)
  = match Races.ingested o with
    | Some data => video_url data :: Store.keys r
    | None => Store.keys st
    end.
Proof.
  unfold Store.keys. open_try. unfold Races.ingested.
  destruct o as [res|err]; simpl; [|reflexivity].
  destruct (ok res); simpl.
  - destruct (json res) as [data|err]; reflexivity.
  - destruct (text res); reflexivity.
Qed.

Lemma keys_deliver (k : string) (m : Message) (l : list ChatSession) :
  map uniqueId (map (Store.deliver k m) l) = map uniqueId l.
Proof.
  induction l as [|s l IH]; simpl; [reflexivity|].
  rewrite deliver_keeps_key, IH. reflexivity.
Qed.

Lemma keys_handleSend_settle (r : State) (o : settled (Response query_json))
  (st : State) :
  Store.keys (handleSend_settle r o st) = Store.keys st.
Proof.
  unfold Store.keys, handleSend_settle.
  destruct (activeChat r) as [chat|] eqn:Hc; [|reflexivity].
  destruct (handleSend_settle_delivers r chat o st Hc) as (reply & _ & Hst & _).
  unfold handleSend_settle in Hst. rewrite Hc in Hst. rewrite Hst.
  apply (keys_deliver (uniqueId chat) reply).
Qed.

Lemma step_keeps_keys_distinct (s : Page.system) (e : Page.event) :
  NoDup (Store.keys (Page.page s)) -> Races.bringsNoRepeat s e ->
  NoDup (Store.keys (Page.page (Page.step s e))).
Proof.
  intros Hnd Hok. unfold Page.step.
  destruct (Page.enabled s e) eqn:En; [|exact Hnd].
  destruct s as [st fl]. unfold Page.enabled in En.
  cbn [Page.page Page.inflight] in *.
  destruct e as [ |k|k|v|v| |v| |n o]; unfold Page.fire;
    cbn [Page.page Page.inflight Page.withPage]; try exact Hnd.
  - unfold Store.keys. destruct (handleDelete_shape k st) as [Hs _]. rewrite Hs.
    apply NoDup_keys_filter. exact Hnd.
  - destruct (handleIngest_begin st) as [[body st1]|] eqn:Hb;
      cbn [Page.page]; [|exact Hnd].
    unfold handleIngest_begin in Hb.
    destruct (negb (truthy (urlInput st))); [discriminate|].
    inversion Hb; subst. exact Hnd.
  - destruct (handleSend_begin st) as [[body st1]|] eqn:Hb;
      cbn [Page.page]; [|exact Hnd].
    destruct (handleSend_begin_inv st body st1 Hb) as (chat & _ & _ & _ & Hst1).
    subst st1. unfold Store.keys in *. simpl.
    rewrite (keys_deliver (uniqueId chat)
               {| role := user; content := questionInput st |}). exact Hnd.
  - destruct (nth_error fl n) as [q|] eqn:Hn; [|discriminate].
    cbn [Page.page].
    destruct q as [|r body|r body]; destruct o as [o|o|o]; try discriminate;
      cbn [Page.settle];
      cbn [Races.bringsNoRepeat Page.inflight Page.page] in Hok;
      try rewrite Hn in Hok.
    + unfold Store.keys. rewrite sessions_fetch_settle.
      destruct (Races.listedRows o) as [rows|].
      * rewrite map_map. simpl. apply distinct_NoDup. exact Hok.
      * destruct (Store.answeredWithError o); [exact Hnd | constructor].
    + rewrite sessions_ingest_settle.
      destruct (Races.ingested o) as [data|]; [|exact Hnd].
      destruct Hok as [Hsame Hfresh].
      unfold Store.keys in *. rewrite Hsame.
      constructor; [|exact Hnd].
      intros Hin.
      assert (existsb (String.eqb (video_url data)) (map uniqueId (sessions st))
              = true) as E.
      { apply existsb_exists. exists (video_url data).
        split; [exact Hin | apply String.eqb_refl]. }
      congruence.
    + rewrite keys_handleSend_settle. exact Hnd.
Qed.

Lemma run_keeps_keys_distinct (es : list Page.event) :
  forall s : Page.system,
    NoDup (Store.keys (Page.page s)) -> Races.noRepeatAlong es s ->
    NoDup (Store.keys (Page.page (Page.run es s))).
Proof.
  induction es as [|e es IH]; intros s Hnd Hok; simpl in *.
  - exact Hnd.
  - destruct Hok as [He Hrest].
    apply IH; [|exact Hrest].
    apply step_keeps_keys_distinct; assumption.
Qed.

(** C3, as the code has it.  The page checks no key: a successful ingest
    never fails and always puts its session in front, whether or not the key
    is already in the collection, and a listing is taken as it comes.  The
    keys of the collection are pairwise distinct after every run of the page
    from mount (requests and clicks interleaved in any order) in which
    every listing that is taken has pairwise distinct urls and every
    successful ingest settles with the collection unchanged since the ingest
    was started and returns a key that is not in the collection; in
    particular after every sequence of hydrate, upsertNew and remove
    operations from the empty store that run one after the other, each to
    completion, with such listings and such keys. *)
Theorem keys_distinct_along_runs :
  (forall es : list Page.event,
      Races.noRepeatAlong es Page.mounted ->
      NoDup (Store.keys (Page.page (Page.run es Page.mounted)))) /\
  (forall ops : list Store.op,
      Store.noRepeatAlong ops initial = true ->
      NoDup (Store.keys (Store.runOps ops initial))) /\
  (forall (st : State) (u t : string) (data : ingest_json),
      truthy u = true ->
      Store.keys (Store.apply st (Store.upsertNew u t data))
      = video_url data :: Store.keys st).
Proof.
  split; [|split].
  - intros es Hok. apply run_keeps_keys_distinct; [constructor | exact Hok].
  - intros ops Hok. apply runOps_keeps_keys_distinct; [constructor | exact Hok].
  - intros st u t data Hu. apply keys_upsertNew. exact Hu.
Qed.

Lemma keys_distinct_along_runs_witness :
  Page.offered Races.undisturbed Page.mounted = true /\
  NoDup (Store.keys (Page.page (Page.run Races.undisturbed Page.mounted))) /\
  NoDup (Store.keys
           (Store.runOps
              [ Store.hydrate Scenario.twoRows;
                Store.upsertNew "https://youtu.be/b" "" Scenario.ingestedB;
                Store.remove "u1" ] initial)).
Proof.
  destruct keys_distinct_along_runs as (Hrun & Hops & _).
  split; [reflexivity|]. split.
  - apply (Hrun Races.undisturbed). simpl. repeat split.
  - apply (Hops [ Store.hydrate Scenario.twoRows;
                  Store.upsertNew "https://youtu.be/b" "" Scenario.ingestedB;
                  Store.remove "u1" ]).
    reflexivity.
Defined.

(** The run in which a session is deleted while its video is ingested
    again ends with the key twice; it is not among the runs above, because
    the collection changed while the ingest was pending. *)
Lemma stale_reingest_is_excluded :
  Page.offered Races.staleReingest Page.mounted = true /\
  Store.keys (Page.page (Page.run Races.staleReingest Page.mounted)) = ["a"; "a"] /\
  ~ Races.noRepeatAlong Races.staleReingest Page.mounted.
Proof.
  split; [reflexivity|]. split; [reflexivity|].
  intros H. simpl in H.
  destruct H as (_ & _ & _ & _ & [Hsame _] & _).
  vm_compute in Hsame. discriminate Hsame.
Qed.

(** ** Routing of the reply on the two pages *)





(** ** The history around a question on the two pages *)

(** C4, as the code has it.  On the session-store page, with an active
    session and a question that is not empty after trimming, [handleSend]
    appends exactly one user message holding the question to that session's
    history before the request is issued; when the request settles with a
    successful response, every session that has the captured key at that
    moment gets one assistant message holding the response at the end of its
    history and no other session changes; so when nothing happened in
    between, the history is the previous one followed by the user message
    and the assistant message, in this order.  On the video-list page the
    user message is appended at once to the displayed messages only, the
    stored histories being untouched at submission; a successful response
    appends the assistant message to the displayed messages and the user
    message followed by the assistant message to the stored history of the
    videos with the captured id; a failed request stores nothing. *)
Theorem send_history_on_both_pages :
  (forall (r : State) (chat : ChatSession),
      activeChat r = Some chat ->
      truthy (trim (questionInput r)) = true ->
      exists (body : query_body) (st1 : State) (chat1 : ChatSession),
        handleSend_begin r = Some (body, st1) /\
        activeChat st1 = Some chat1 /\
        messages chat1
        = messages chat ++ [ {| role := user; content := questionInput r |} ] /\
        forall (res : Response query_json) (data : query_json),
          ok res = true -> json res = Fulfilled data ->
          (forall st : State,
              Forall2 (fun s s' =>
                         (uniqueId s = uniqueId chat ->
                          s' = Store.withMessage s
                                 {| role := assistant; content := response data |}) /\
                         (uniqueId s <> uniqueId chat -> s' = s))
                      (sessions st)
                      (sessions (handleSend_settle r (Fulfilled res) st))) /\
          exists chat2 : ChatSession,
            activeChat (handleSend_settle r (Fulfilled res) st1) = Some chat2 /\
            messages chat2
            = messages chat ++ [ {| role := user; content := questionInput r |};
                                 {| role := assistant; content := response data |} ]) /\
  (forall (r : VideoChatHome.State) (body : VideoChatHome.query_body)
          (st1 : VideoChatHome.State),
      VideoChatHome.handleSend_begin r = Some (body, st1) ->
      exists active : string,
        VideoChatHome.activeVideoId r = Some active /\
        VideoChatHome.currentMessages st1
        = VideoChatHome.currentMessages r
            ++ [ {| role := user; content := VideoChatHome.question r |} ] /\
        VideoChatHome.videos st1 = VideoChatHome.videos r /\
        (forall (res : Response query_json) (data : query_json)
                (st : VideoChatHome.State),
            ok res = true -> json res = Fulfilled data ->
            VideoChatHome.currentMessages
              (VideoChatHome.handleSend_settle r (Fulfilled res) st)
            = VideoChatHome.currentMessages st
                ++ [ {| role := assistant; content := response data |} ] /\
            VideoChatHome.videos
              (VideoChatHome.handleSend_settle r (Fulfilled res) st)
            = map (VideoListPage.deliverExchange active
                     {| role := user; content := VideoChatHome.question r |}
                     {| role := assistant; content := response data |})
                  (VideoChatHome.videos st)) /\
        (forall (o : settled (Response query_json)) (t : string)
                (st : VideoChatHome.State),
            Store.failsWith o t ->
            VideoChatHome.videos (VideoChatHome.handleSend_settle r o st)
            = VideoChatHome.videos st)).
Proof.
  split.
  - intros r chat Hc Hq.
    destruct (send_appends_question_then_answer r chat Hc Hq)
      as (body & st1 & chat1 & Hb & Hc1 & Hm1 & Hafter).
    exists body, st1, chat1.
    split; [exact Hb|]. split; [exact Hc1|]. split; [exact Hm1|].
    intros res data Hok Hj. split; [|apply (Hafter res data Hok Hj)].
    intros st.
    destruct (handleSend_settle_delivers r chat (Fulfilled res) st Hc)
      as (reply & Hrole & Hst & Hanswer & _).
    specialize (Hanswer res data eq_refl Hok Hj).
    destruct reply as [rr rc]. simpl in Hrole, Hanswer. subst rr rc.
    rewrite Hst. simpl. apply deliver_pointwise.
  - intros r body st1 Hb.
    destruct (videoList_handleSend_begin_inv r body st1 Hb)
      as (active & Ha & _ & _ & _ & Hst1).
    exists active. split; [exact Ha|].
    split; [rewrite Hst1; reflexivity|]. split; [rewrite Hst1; reflexivity|].
    split.
    + intros res data st Hok Hj.
      destruct (videoList_handleSend_settle_shape r active (Fulfilled res) st Ha)
        as (reply & vs & Hrole & Hst & _ & Hsucc & _).
      destruct (Hsucc res data eq_refl Hok Hj) as [Hcontent Hvs].
      destruct reply as [rr rc]. simpl in Hrole, Hcontent. subst rr rc.
      rewrite Hst, Hvs. split; reflexivity.
    + intros o t st Hf.
      destruct (videoList_handleSend_settle_shape r active o st Ha)
        as (reply & vs & _ & Hst & _ & _ & Hfail).
      destruct (Hfail t Hf) as [Hvs _]. rewrite Hst, Hvs. reflexivity.
Qed.

Lemma send_history_on_both_pages_witness :
  (exists (body : query_body) (st1 : State) (chat1 chat2 : ChatSession),
      handleSend_begin Scenario.beforeSend = Some (body, st1) /\
      activeChat st1 = Some chat1 /\
      messages chat1 = [ {| role := user; content := "What is this about?" |} ] /\
      activeChat (handleSend_settle Scenario.beforeSend Scenario.cookingAnswer st1)
      = Some chat2 /\
      messages chat2
      = [ {| role := user; content := "What is this about?" |};
          {| role := assistant; content := "It's a cooking tutorial." |} ]) /\
  (exists active : string,
      VideoChatHome.activeVideoId VideoListPage.beforeQuestion = Some active /\
      VideoChatHome.currentMessages
        (VideoChatHome.setLoading true
           (VideoChatHome.setQuestion ""
              (VideoChatHome.setCurrentMessages
                 (fun prev => prev ++ [ {| role := user;
                                           content := "What is this about?" |} ])
                 VideoListPage.beforeQuestion)))
      = [ {| role := user; content := "What is this about?" |} ] /\
      VideoChatHome.videos
        (VideoChatHome.handleSend_settle VideoListPage.beforeQuestion
           Scenario.cookingAnswer VideoListPage.beforeQuestion)
      = map (VideoListPage.deliverExchange active
               {| role := user; content := "What is this about?" |}
               {| role := assistant; content := "It's a cooking tutorial." |})
            (VideoChatHome.videos VideoListPage.beforeQuestion) /\
      VideoChatHome.videos
        (VideoChatHome.handleSend_settle VideoListPage.beforeQuestion
           (Page.status500 "model not loaded") VideoListPage.beforeQuestion)
      = VideoChatHome.videos VideoListPage.beforeQuestion).
Proof.
  destruct send_history_on_both_pages as [Hstore Hlist].
  assert (Hf : Store.failsWith
                 (Page.status500 (J := query_json) "model not loaded")
                 "model not loaded")
    by (apply Store.http_error; reflexivity).
  split.
  - destruct (Hstore Scenario.beforeSend
                {| id := "a"; uniqueId := "a"; title := "first video";
                   messages := [] |} eq_refl eq_refl)
      as (body & st1 & chat1 & H1 & H2 & H3 & Hafter).
    destruct (Hafter {| ok := true; res_statusText := "OK"; text := Fulfilled "";
                        json := Fulfilled {| response := "It's a cooking tutorial." |} |}
                {| response := "It's a cooking tutorial." |} eq_refl eq_refl)
      as (_ & chat2 & H4 & H5).
    exists body, st1, chat1, chat2.
    split; [exact H1|]. split; [exact H2|]. split; [exact H3|].
    split; [exact H4 | exact H5].
  - destruct (Hlist VideoListPage.beforeQuestion
                {| VideoChatHome.body_question := "What is this about?";
                   VideoChatHome.body_video_id := "v1"; VideoChatHome.top_k := 5 |}
                (VideoChatHome.setLoading true
                   (VideoChatHome.setQuestion ""
                      (VideoChatHome.setCurrentMessages
                         (fun prev => prev ++ [ {| role := user;
                                                   content := "What is this about?" |} ])
                         VideoListPage.beforeQuestion)))
                eq_refl)
      as (active & H1 & H2 & _ & Hsucc & Hfail).
    destruct (Hsucc {| ok := true; res_statusText := "OK"; text := Fulfilled "";
                       json := Fulfilled {| response := "It's a cooking tutorial." |} |}
                {| response := "It's a cooking tutorial." |}
                VideoListPage.beforeQuestion eq_refl eq_refl) as [_ H3].
    exists active. split; [exact H1|]. split; [exact H2|].
    split; [exact H3|].
    apply (Hfail (Page.status500 "model not loaded") "model not loaded"
             VideoListPage.beforeQuestion Hf).
Defined.

(** C4 fails as stated.  On the session-store page, when the listing
    arrives between the question and its answer, the session is replaced by
    one with an empty history and the answer lands alone in it: after the
    successful resolution the history is the assistant message only.  On
    the video-list page, right after a question is sent the stored history
    of the active video is still empty, the user message being in the
    displayed messages only. *)
Lemma answer_alone_after_listing :
  Page.offered Races.listingBetween Page.mounted = true /\
  sessions (Page.page (Page.run Races.listingBetween Page.mounted))
  = [ {| id := "b"; uniqueId := "b"; title := "second video";
         messages := [ {| role := assistant;
                          content := "It's a cooking tutorial." |} ] |} ] /\
  Races.videoListOffered (firstn 5 VideoListPage.failedQuestion) VideoListPage.start
  = true /\
  VideoChatHome.videos
    (VideoListPage.page
       (VideoListPage.run (firstn 5 VideoListPage.failedQuestion) VideoListPage.start))
  = [ {| VideoChatHome.videoId := "v1"; VideoChatHome.title := "b";
         VideoChatHome.messages := [] |} ] /\
  VideoChatHome.currentMessages
    (VideoListPage.page
       (VideoListPage.run (firstn 5 VideoListPage.failedQuestion) VideoListPage.start))
  = [ {| role := user; content := "What is this about?" |} ].
Proof. vm_compute. repeat split. Qed.

(** ** A failed ingest on the two pages *)



